(** * A shallow embedding of the connection orchestration of robomongo's [App]
    (src/robomongo/core/domain/App.cpp) and proofs about its behaviour. *)

From Stdlib Require Import ZArith List String Ascii Bool Lia Sorting.Sorted.
Import ListNotations.
Open Scope Z_scope.

(* ------------------------------------------------------------------ *)
(** ** The Qt string helpers used by [detail::buildCollectionQuery] *)

Module QtString.

(** [QChar::digitValue] on the ASCII characters. *)
Definition digitValue (c : ascii) : option Z :=
  let n := Z.of_nat (nat_of_ascii c) in
  if (48 <=? n)%Z && (n <=? 57)%Z then Some (n - 48)%Z else None.

(** [findArgEscapes] of Qt 5 (qstring.cpp): the lowest escape number
    [%n], [%Ln] or [%nn] occurring in the string, and how often it occurs.
    The scan after a ['%'] follows the C++ loop: an optional ['L'], then
    one digit, optionally followed by a second digit; a character that is
    not a digit is scanned again as the start of the remaining text. *)
Fixpoint findArgEscapes (s : string) (d : option (Z * nat)) : option (Z * nat) :=
  let record (e : Z) (d : option (Z * nat)) :=
    match d with
    | None => Some (e, 1%nat)
    | Some (m, k) =>
        if e >? m then d else if e <? m then Some (e, 1%nat) else Some (m, S k)
    end in
  match s with
  | EmptyString => d
  | String c rest =>
      if Ascii.eqb c "%"%char then
        match rest with
        | EmptyString => d
        | String c1 rest1 =>
            if Ascii.eqb c1 "L"%char then
              match rest1 with
              | EmptyString => d
              | String c2 rest2 =>
                  match digitValue c2 with
                  | None => findArgEscapes rest1 d
                  | Some e =>
                      match rest2 with
                      | String c3 rest3 =>
                          match digitValue c3 with
                          | Some e' => findArgEscapes rest3 (record (10 * e + e') d)
                          | None => findArgEscapes rest2 (record e d)
                          end
                      | EmptyString => findArgEscapes rest2 (record e d)
                      end
                  end
              end
            else
              match digitValue c1 with
              | None => findArgEscapes rest d
              | Some e =>
                  match rest1 with
                  | String c3 rest3 =>
                      match digitValue c3 with
                      | Some e' => findArgEscapes rest3 (record (10 * e + e') d)
                      | None => findArgEscapes rest1 (record e d)
                      end
                  | EmptyString => findArgEscapes rest1 (record e d)
                  end
              end
        end
      else findArgEscapes rest d
  end.

(** [replaceArgEscapes] of Qt 5 with field width 0: every escape whose
    number is [m] (with or without ['L']) is replaced by [a]; all other
    text, including the other escapes, is copied verbatim. *)
Fixpoint replaceArgEscapes (m : Z) (a s : string) : string :=
  match s with
  | EmptyString => EmptyString
  | String c rest =>
      if Ascii.eqb c "%"%char then
        match rest with
        | EmptyString => String c EmptyString
        | String c1 rest1 =>
            if Ascii.eqb c1 "L"%char then
              match rest1 with
              | EmptyString => String c (String c1 EmptyString)
              | String c2 rest2 =>
                  match digitValue c2 with
                  | None => String c (String c1 (replaceArgEscapes m a rest1))
                  | Some e =>
                      match rest2 with
                      | String c3 rest3 =>
                          match digitValue c3 with
                          | Some e' =>
                              if (10 * e + e' =? m)%Z then a ++ replaceArgEscapes m a rest3
                              else String c (String c1 (String c2 (String c3
                                     (replaceArgEscapes m a rest3))))
                          | None =>
                              if (e =? m)%Z then a ++ replaceArgEscapes m a rest2
                              else String c (String c1 (String c2
                                     (replaceArgEscapes m a rest2)))
                          end
                      | EmptyString =>
                          if (e =? m)%Z then a
                          else String c (String c1 (String c2 EmptyString))
                      end
                  end
              end
            else
              match digitValue c1 with
              | None => String c (replaceArgEscapes m a rest)
              | Some e =>
                  match rest1 with
                  | String c3 rest3 =>
                      match digitValue c3 with
                      | Some e' =>
                          if (10 * e + e' =? m)%Z then a ++ replaceArgEscapes m a rest3
                          else String c (String c1 (String c3 (replaceArgEscapes m a rest3)))
                      | None =>
                          if (e =? m)%Z then a ++ replaceArgEscapes m a rest1
                          else String c (String c1 (replaceArgEscapes m a rest1))
                      end
                  | EmptyString =>
                      if (e =? m)%Z then a else String c (String c1 EmptyString)
                  end
              end
        end
      else String c (replaceArgEscapes m a rest)
  end.

(** [QString::arg(const QString &a)]: with no escape in the string Qt
    prints a warning and returns the string unchanged. *)
Definition arg (s a : string) : string :=
  match findArgEscapes s None with
  | None => s
  | Some (m, _) => replaceArgEscapes m a s
  end.

(** [QString::replace(QChar('\\'), "\\\\")]: every backslash doubled. *)
Fixpoint escapeBackslashes (s : string) : string :=
  match s with
  | EmptyString => EmptyString
  | String c rest =>
      if Ascii.eqb c "\"%char then String "\"%char (String "\"%char (escapeBackslashes rest))
      else String c (escapeBackslashes rest)
  end.

End QtString.

(** [detail::buildCollectionQuery]: the collection name (converted with
    [QtUtils::toQString], the identity on ASCII text) is escaped and
    substituted into the pattern with two chained [arg] calls. *)
Definition buildCollectionQuery (collectionName postfix : string) : string :=
  let pattern := "db.getCollection('%1').%2"%string in
  let qCollectionName := QtString.escapeBackslashes collectionName in
  QtString.arg (QtString.arg pattern qCollectionName) postfix.

(** The template of the specification, with the name substituted literally. *)
Definition collectionQueryTemplate (collectionName postfix : string) : string :=
  "db.getCollection('" ++ QtString.escapeBackslashes collectionName ++ "')." ++ postfix.

Open Scope list_scope.

(* ------------------------------------------------------------------ *)
(** ** Data model *)

Inductive ConnectionType := ConnectionPrimary | ConnectionSecondary | ConnectionTest.

Definition isPrimaryOrTest (type : ConnectionType) : bool :=
  match type with ConnectionPrimary | ConnectionTest => true | ConnectionSecondary => false end.

Definition isPrimary (type : ConnectionType) : bool :=
  match type with ConnectionPrimary => true | _ => false end.

Definition isSecondary (type : ConnectionType) : bool :=
  match type with ConnectionSecondary => true | _ => false end.

Record SshSettings := mkSshSettings {
  ssh_enabled : bool;
  ssh_askPassword : bool;
  ssh_authMethod : string;
  ssh_host : string;
  ssh_port : Z;
  ssh_userName : string;
  ssh_privateKeyFile : string;
  ssh_askedPassword : string }.

Record SslSettings := mkSslSettings {
  ssl_sslEnabled : bool;
  ssl_usePemFile : bool;
  ssl_askPassphrase : bool;
  ssl_pemKeyFile : string;
  ssl_pemPassPhrase : string }.

Record ConnectionSettings := mkConnectionSettings {
  cs_connectionName : string;
  cs_serverHost : string;
  cs_serverPort : Z;
  cs_defaultDatabase : string;
  cs_isReplicaSet : bool;
  cs_members : list string;
  cs_ssh : SshSettings;
  cs_ssl : SslSettings }.

Definition setServerHost (host : string) (c : ConnectionSettings) : ConnectionSettings :=
  mkConnectionSettings (cs_connectionName c) host (cs_serverPort c) (cs_defaultDatabase c)
    (cs_isReplicaSet c) (cs_members c) (cs_ssh c) (cs_ssl c).

Definition setServerPort (port : Z) (c : ConnectionSettings) : ConnectionSettings :=
  mkConnectionSettings (cs_connectionName c) (cs_serverHost c) port (cs_defaultDatabase c)
    (cs_isReplicaSet c) (cs_members c) (cs_ssh c) (cs_ssl c).

(** [ssh->setAskedPassword(...)] on the [SshSettings] owned by [c]. *)
Definition setAskedPassword (pw : string) (c : ConnectionSettings) : ConnectionSettings :=
  let s := cs_ssh c in
  mkConnectionSettings (cs_connectionName c) (cs_serverHost c) (cs_serverPort c)
    (cs_defaultDatabase c) (cs_isReplicaSet c) (cs_members c)
    (mkSshSettings (ssh_enabled s) (ssh_askPassword s) (ssh_authMethod s) (ssh_host s)
       (ssh_port s) (ssh_userName s) (ssh_privateKeyFile s) pw)
    (cs_ssl c).

(** [sslSettings->setPemPassPhrase(...)] on the [SslSettings] owned by [c]. *)
Definition setPemPassPhrase (pp : string) (c : ConnectionSettings) : ConnectionSettings :=
  let s := cs_ssl c in
  mkConnectionSettings (cs_connectionName c) (cs_serverHost c) (cs_serverPort c)
    (cs_defaultDatabase c) (cs_isReplicaSet c) (cs_members c) (cs_ssh c)
    (mkSslSettings (ssl_sslEnabled s) (ssl_usePemFile s) (ssl_askPassphrase s)
       (ssl_pemKeyFile s) pp).

(** A [ConnectionSettings*]: an index into the heap of settings objects. *)
Definition ptr := nat.

Record MongoServer := mkMongoServer {
  srv_handle : Z;
  srv_settings : ptr;
  srv_type : ConnectionType }.

Record ScriptInfo := mkScriptInfo {
  si_script : string;
  si_execute : bool;
  si_dbname : string;
  si_cursor : Z * Z;
  si_title : string;
  si_filePathToSave : string }.

Record MongoShell := mkMongoShell {
  shell_server : MongoServer;
  shell_scriptInfo : ScriptInfo }.

Inductive Reason := SshConnection | SshChannel | Generic.

(** Events published on the bus. *)
Inductive Event :=
| ConnectingEvent
| OpeningShellEvent (shell : MongoShell)
| ConnectionFailedEvent (serverHandle : Z) (type : ConnectionType) (message : string)
    (reason : Reason).

(** Requests sent point-to-point to an [SshTunnelWorker]. *)
Inductive Request :=
| EstablishSshConnectionRequest (serverHandle : Z) (worker : nat) (settings : ptr)
    (type : ConnectionType)
| ListenSshConnectionRequest (serverHandle : Z) (type : ConnectionType).

Inductive Severity := Info | Error.

(** The label of "Connecting to %1...": for a replica set the connection
    name, " [Replica Set]" and the first member (if any); otherwise the
    settings' full address [host:port]. *)
Inductive ServerLabel :=
| LabelReplicaSet (text : string)
| LabelAddress (host : string) (port : Z).

Inductive LogMsg :=
| MsgConnecting (label : ServerLabel)
| MsgCreatingTunnel (host : string) (port : Z)
| MsgTunnelCreated
| MsgTunnelClosed.

(** The primitive effects of the [App], in program order. *)
Inductive Action :=
| AIssueHandle (h : Z)                      (* ++_lastServerHandle *)
| APublish (e : Event)                      (* _bus->publish *)
| ASend (worker : nat) (r : Request)        (* _bus->send *)
| ALog (m : LogMsg) (sev : Severity)        (* LOG_MSG *)
| ARunWorkerThread (h : Z)                  (* server->runWorkerThread() *)
| ATryConnect (h : Z)                       (* server->tryConnect() *)
| ASubscribe (origin : MongoServer) (shell : MongoShell) (* ReplicaSetRefreshed *)
| AExecute (shell : MongoShell).            (* shell->execute() *)

(** The [App] object with the memory it reaches: the settings objects
    (the caller's and the clones) and the tunnel workers (each holding
    its settings object). [servers] holds the [unique_ptr]s of
    [_servers], [None] being a null pointer. *)
Record App := mkApp {
  lastServerHandle : Z;
  servers : list (option MongoServer);
  shells : list MongoShell;
  heap : list ConnectionSettings;
  workers : list ptr;
  trace : list Action }.

(** [App::App]: [_lastServerHandle(0)], empty collections. *)
Definition initApp (h : list ConnectionSettings) : App := mkApp 0 [] [] h [] [].

(** [_lastServerHandle] is an [int]; the increment wraps on the 32-bit
    two's-complement targets (signed overflow is undefined in C++). *)
Definition INT_MAX : Z := 2 ^ 31 - 1.
Definition wrap32 (z : Z) : Z := (z + 2 ^ 31) mod 2 ^ 32 - 2 ^ 31.

(* ------------------------------------------------------------------ *)
(** ** A state and failure monad over [App] (failure: a bad pointer) *)

Definition M (A : Type) := App -> option (A * App).

Definition ret {A} (a : A) : M A := fun s => Some (a, s).
Definition bind {A B} (m : M A) (k : A -> M B) : M B :=
  fun s => match m s with Some (a, s') => k a s' | None => None end.

Notation "x <- m ;; k" := (bind m (fun x => k))
  (at level 61, m at next level, right associativity).
Notation "m ;;; k" := (bind m (fun _ => k))
  (at level 61, right associativity).

Definition emit (a : Action) : M unit :=
  fun s => Some (tt, mkApp (lastServerHandle s) (servers s) (shells s) (heap s) (workers s)
                          (trace s ++ [a])%list).

Definition get_settings (p : ptr) : M ConnectionSettings :=
  fun s => match nth_error (heap s) p with Some c => Some (c, s) | None => None end.

Fixpoint list_set {A} (l : list A) (n : nat) (x : A) : list A :=
  match l, n with
  | [], _ => []
  | _ :: t, O => x :: t
  | y :: t, S n' => y :: list_set t n' x
  end.

Definition set_settings (p : ptr) (f : ConnectionSettings -> ConnectionSettings) : M unit :=
  fun s => match nth_error (heap s) p with
           | Some c => Some (tt, mkApp (lastServerHandle s) (servers s) (shells s)
                                   (list_set (heap s) p (f c)) (workers s) (trace s))
           | None => None
           end.

(** [connSettings->clone()]: a new settings object equal to [p]'s. *)
Definition clone (p : ptr) : M ptr :=
  fun s => match nth_error (heap s) p with
           | Some c => Some (List.length (heap s), mkApp (lastServerHandle s) (servers s) (shells s)
                                                (heap s ++ [c])%list (workers s) (trace s))
           | None => None
           end.

(** [new SshTunnelWorker(settings)]. *)
Definition new_worker (p : ptr) : M nat :=
  fun s => Some (List.length (workers s), mkApp (lastServerHandle s) (servers s) (shells s)
                                      (heap s) (workers s ++ [p])%list (trace s)).

(** [++_lastServerHandle]. *)
Definition incr_handle : M Z :=
  fun s => let h := wrap32 (lastServerHandle s + 1) in
           Some (h, mkApp h (servers s) (shells s) (heap s) (workers s)
                          (trace s ++ [AIssueHandle h])%list).

(** [_servers.push_back(...)]. *)
Definition push_server (r : option MongoServer) : M unit :=
  fun s => Some (tt, mkApp (lastServerHandle s) (servers s ++ [r])%list (shells s) (heap s)
                          (workers s) (trace s)).

(** [_shells.push_back(...)]. *)
Definition push_shell (sh : MongoShell) : M unit :=
  fun s => Some (tt, mkApp (lastServerHandle s) (servers s) (shells s ++ [sh])%list (heap s)
                          (workers s) (trace s)).

(* ------------------------------------------------------------------ *)
(** ** The operations of [App] *)

(** [App::continueOpenServer]: the clone gets the tunnel endpoint
    [127.0.0.1:localport] for non-replica-set Primary/Test connections
    with SSH enabled; the label of the log message is computed from the
    original settings. *)
Definition continueOpenServer (serverHandle : Z) (connSettings : ptr)
    (type : ConnectionType) (localport : Z) : M MongoServer :=
  connSettingsClone <- clone connSettings ;;
  cl <- get_settings connSettingsClone ;;
  (if isPrimaryOrTest type && negb (cs_isReplicaSet cl) && ssh_enabled (cs_ssh cl)
   then set_settings connSettingsClone
          (fun c => setServerPort localport (setServerHost "127.0.0.1" c))
   else ret tt) ;;;
  let server := mkMongoServer serverHandle connSettingsClone type in
  emit (ARunWorkerThread serverHandle) ;;;
  cs <- get_settings connSettings ;;
  let replicaSetStr :=
    (cs_connectionName cs ++ " [Replica Set]" ++
     match cs_members cs with m :: _ => m | [] => "" end)%string in
  let serverAddress :=
    if cs_isReplicaSet cs then LabelReplicaSet replicaSetStr
    else LabelAddress (cs_serverHost cs) (cs_serverPort cs) in
  emit (ALog (MsgConnecting serverAddress) Info) ;;;
  emit (ATryConnect serverHandle) ;;;
  ret server.

(** The local port passed by the no-tunnel call of [continueOpenServer]
    (its default argument); it is not used on that path. *)
Definition defaultLocalPort : Z := 0.

(** [App::openServerInternal]: returns the new server, or [None] (a null
    [unique_ptr]) after sending the establish request to a new tunnel worker. *)
Definition openServerInternal (connSettings : ptr) (type : ConnectionType)
    : M (option MongoServer) :=
  h <- incr_handle ;;
  (if isPrimary type then emit (APublish ConnectingEvent) else ret tt) ;;;
  cs <- get_settings connSettings ;;
  if isSecondary type || negb (ssh_enabled (cs_ssh cs)) || cs_isReplicaSet cs then
    server <- continueOpenServer h connSettings type defaultLocalPort ;;
    ret (Some server)
  else
    emit (ALog (MsgCreatingTunnel (ssh_host (cs_ssh cs)) (ssh_port (cs_ssh cs))) Info) ;;;
    settingsCopy <- clone connSettings ;;
    sshWorker <- new_worker settingsCopy ;;
    emit (ASend sshWorker (EstablishSshConnectionRequest h sshWorker settingsCopy type)) ;;;
    ret None.

(** The modal credential dialogs ([QInputDialog::getText]): the text
    entered, or [None] when the dialog is cancelled ([ok == false]). *)
Inductive PromptKind := SshPrompt | SslPrompt.
Definition Prompt := PromptKind -> option string.

(** [App::askSslPassphrasePromptDialog]. *)
Definition askSslPassphrasePromptDialog (prompt : Prompt) (connSettings : ptr) : M bool :=
  match prompt SslPrompt with
  | None => ret false
  | Some userInput => set_settings connSettings (setPemPassPhrase userInput) ;;; ret true
  end.

(** The condition of the SSH credential prompt of [App::openServer]. *)
Definition sshPromptRequired (cs : ConnectionSettings) (type : ConnectionType) : bool :=
  negb (cs_isReplicaSet cs) && ssh_enabled (cs_ssh cs) && ssh_askPassword (cs_ssh cs)
  && isPrimaryOrTest type.

(** The condition of the SSL passphrase prompt of [App::openServer]. *)
Definition sslPromptRequired (cs : ConnectionSettings) (type : ConnectionType) : bool :=
  ssl_sslEnabled (cs_ssl cs) && ssl_usePemFile (cs_ssl cs) && ssl_askPassphrase (cs_ssl cs)
  && isPrimaryOrTest type.

(** The part of [App::openServer] after the SSH prompt: the SSL prompt,
    then [_servers.push_back(move(openServerInternal(connection, type)))]. *)
Definition openServerAfterSshPrompt (prompt : Prompt) (connection : ptr)
    (type : ConnectionType) : M bool :=
  cs <- get_settings connection ;;
  ok <- (if sslPromptRequired cs type then askSslPassphrasePromptDialog prompt connection
         else ret true) ;;
  if ok then
    r <- openServerInternal connection type ;;
    push_server r ;;;
    ret true
  else ret false.

(** [App::openServer]. *)
Definition openServer (prompt : Prompt) (connection : ptr) (type : ConnectionType) : M bool :=
  cs <- get_settings connection ;;
  if sshPromptRequired cs type then
    match prompt SshPrompt with
    | None => ret false
    | Some userInput =>
        set_settings connection (setAskedPassword userInput) ;;;
        openServerAfterSshPrompt prompt connection type
    end
  else openServerAfterSshPrompt prompt connection type.

(** [App::openShell(MongoServer*, ConnectionSettings*, const ScriptInfo&)];
    [server] is the originating server pointer ([None]: null). *)
Definition openShell (server : option MongoServer) (connection : ptr)
    (scriptInfo : ScriptInfo) : M unit :=
  serverClone <- openServerInternal connection ConnectionSecondary ;;
  match serverClone, server with
  | Some sc, Some origin =>
      let shell := mkMongoShell sc scriptInfo in
      push_server (Some sc) ;;;
      emit (ASubscribe origin shell) ;;;
      emit (APublish (OpeningShellEvent shell)) ;;;
      emit (AExecute shell) ;;;
      push_shell shell
  | _, _ => ret tt
  end.

Record EstablishSshConnectionResponse := mkEstablishResponse {
  est_serverHandle : Z;
  est_worker : nat;
  est_settings : ptr;
  est_connectionType : ConnectionType;
  est_localport : Z;
  est_error : option string }.

Record ListenSshConnectionResponse := mkListenResponse {
  lst_serverHandle : Z;
  lst_connectionType : ConnectionType;
  lst_error : option string }.

(** [App::handle] for an [EstablishSshConnectionResponse] event. *)
Definition handleEstablish (event : EstablishSshConnectionResponse) : M unit :=
  match est_error event with
  | Some msg =>
      emit (APublish (ConnectionFailedEvent (est_serverHandle event)
                        (est_connectionType event) msg SshConnection))
  | None =>
      emit (ALog MsgTunnelCreated Info) ;;;
      server <- continueOpenServer (est_serverHandle event) (est_settings event)
                  (est_connectionType event) (est_localport event) ;;
      push_server (Some server) ;;;
      emit (ASend (est_worker event)
              (ListenSshConnectionRequest (est_serverHandle event) (est_connectionType event)))
  end.

(** [App::handle] for a [ListenSshConnectionResponse] event. *)
Definition handleListen (event : ListenSshConnectionResponse) : M unit :=
  match lst_error event with
  | Some msg =>
      emit (APublish (ConnectionFailedEvent (lst_serverHandle event)
                        (lst_connectionType event) msg SshChannel))
  | None => emit (ALog MsgTunnelClosed Error)
  end.

(** [App::closeServer]: erases the entries equal to [server]. Every
    server owns a settings clone of its own, so comparing the records
    compares the objects. *)
Definition ConnectionType_eqb (a b : ConnectionType) : bool :=
  match a, b with
  | ConnectionPrimary, ConnectionPrimary | ConnectionSecondary, ConnectionSecondary
  | ConnectionTest, ConnectionTest => true
  | _, _ => false
  end.

Definition MongoServer_eqb (a b : MongoServer) : bool :=
  (srv_handle a =? srv_handle b) && Nat.eqb (srv_settings a) (srv_settings b)
  && ConnectionType_eqb (srv_type a) (srv_type b).

Definition ptr_eqb (a b : option MongoServer) : bool :=
  match a, b with
  | Some x, Some y => MongoServer_eqb x y
  | None, None => true
  | _, _ => false
  end.

Definition closeServer (server : option MongoServer) : M unit :=
  fun s => Some (tt, mkApp (lastServerHandle s)
                          (filter (fun el => negb (ptr_eqb el server)) (servers s))
                          (shells s) (heap s) (workers s) (trace s)).

(** A shell exclusively owns its server, so shells are compared by it. *)
Definition MongoShell_eqb (a b : MongoShell) : bool :=
  MongoServer_eqb (shell_server a) (shell_server b).

Fixpoint remove_first {A} (f : A -> bool) (l : list A) : list A :=
  match l with
  | [] => []
  | x :: t => if f x then t else x :: remove_first f t
  end.

Definition erase_shell (shell : MongoShell) : M unit :=
  fun s => Some (tt, mkApp (lastServerHandle s) (servers s)
                          (remove_first (MongoShell_eqb shell) (shells s))
                          (heap s) (workers s) (trace s)).

(** [App::closeShell]: nothing when the shell is not owned by this [App];
    otherwise its server is closed first, then the shell erased. *)
Definition closeShell (shell : MongoShell) : M unit :=
  fun s =>
    if existsb (MongoShell_eqb shell) (shells s) then
      (closeServer (Some (shell_server shell)) ;;; erase_shell shell) s
    else Some (tt, s).

(* ------------------------------------------------------------------ *)
(** ** Derived notions used in the statements *)

(** The decision rule of [openServerInternal] (negation of its guard). *)
Definition tunnelRequired (type : ConnectionType) (cs : ConnectionSettings) : bool :=
  isPrimaryOrTest type && negb (cs_isReplicaSet cs) && ssh_enabled (cs_ssh cs).

(** The non-null entries of [_servers]. *)
Fixpoint liveServers (l : list (option MongoServer)) : list MongoServer :=
  match l with
  | [] => []
  | Some x :: t => x :: liveServers t
  | None :: t => liveServers t
  end.

Definition serverHandles (l : list (option MongoServer)) : list Z :=
  map srv_handle (liveServers l).

(** The handles issued by [++_lastServerHandle] in a trace. *)
Fixpoint issuedHandles (tr : list Action) : list Z :=
  match tr with
  | [] => []
  | AIssueHandle h :: t => h :: issuedHandles t
  | _ :: t => issuedHandles t
  end.

(** The handles of the establish requests sent in a trace. *)
Fixpoint establishRequests (tr : list Action) : list Z :=
  match tr with
  | [] => []
  | ASend _ (EstablishSshConnectionRequest h _ _ _) :: t => h :: establishRequests t
  | _ :: t => establishRequests t
  end.

(** The events published in a trace. *)
Fixpoint published (tr : list Action) : list Event :=
  match tr with
  | [] => []
  | APublish e :: t => e :: published t
  | _ :: t => published t
  end.

(** [openServer] called on a sequence of requests, one after the other. *)
Fixpoint openServerAll (calls : list (Prompt * ptr * ConnectionType)) : M (list bool) :=
  match calls with
  | [] => ret []
  | (prompt, p, t) :: rest =>
      b <- openServer prompt p t ;;
      bs <- openServerAll rest ;;
      ret (b :: bs)
  end.

(** [connSettings->setDefaultDatabase(...)]. *)
Definition setDefaultDatabase (db : string) (c : ConnectionSettings) : ConnectionSettings :=
  mkConnectionSettings (cs_connectionName c) (cs_serverHost c) (cs_serverPort c) db
    (cs_isReplicaSet c) (cs_members c) (cs_ssh c) (cs_ssl c).

(** The accessors of [MongoDatabase] and [MongoCollection] the [App] uses. *)
Record MongoDatabase := mkMongoDatabase {
  db_server : MongoServer;
  db_name : string }.

Record MongoCollection := mkMongoCollection {
  coll_database : MongoDatabase;
  coll_name : string }.

(** [server->connectionRecord()]: the settings object the server owns. *)
Definition connectionRecord (server : MongoServer) : ptr := srv_settings server.

(** [App::openShell(MongoCollection*, const QString&)]. *)
Definition openShellCollection (collection : MongoCollection) (filePathToSave : string)
    : M unit :=
  let connection := connectionRecord (db_server (coll_database collection)) in
  let dbname := db_name (coll_database collection) in
  set_settings connection (setDefaultDatabase dbname) ;;;
  let script := buildCollectionQuery (coll_name collection) "find({})" in
  openShell (Some (db_server (coll_database collection))) connection
    (mkScriptInfo script true dbname (0, -2) dbname filePathToSave).

(** [App::openShell(MongoServer*, const QString&, const std::string&, bool,
    const QString&, const CursorPosition&, const QString&)]. *)
Definition openShellScript (server : MongoServer) (script dbName : string) (execute : bool)
    (shellName : string) (cursorPosition : Z * Z) (filePathToSave : string) : M unit :=
  let connection := connectionRecord server in
  (if negb (String.eqb dbName EmptyString)
   then set_settings connection (setDefaultDatabase dbName) else ret tt) ;;;
  openShell (Some server) connection
    (mkScriptInfo script execute dbName cursorPosition shellName filePathToSave).

(** [App::openShell(MongoDatabase*, const QString&, bool, const QString&,
    const CursorPosition&, const QString&)]. *)
Definition openShellDatabase (database : MongoDatabase) (script : string) (execute : bool)
    (shellName : string) (cursorPosition : Z * Z) (filePathToSave : string) : M unit :=
  let connection := connectionRecord (db_server database) in
  set_settings connection (setDefaultDatabase (db_name database)) ;;;
  openShell (Some (db_server database)) connection
    (mkScriptInfo script execute (db_name database) cursorPosition shellName filePathToSave).

(* ------------------------------------------------------------------ *)
(** ** The orchestrator in its environment

    The bus delivers one event at a time: any public call of the [App]
    (an [openServer], one of the [openShell] overloads, a [closeServer] or
    a [closeShell]) or a response. A tunnel worker answers the establish
    request it was sent, once; listen responses may come at any time.
    [answered] records the handles whose establish request has been
    answered. The [int] counter wraps as in the code. *)
Record World := mkWorld { app : App; answered : list Z }.

Inductive step : World -> World -> Prop :=
| StepOpenServer w prompt p t b a' :
    openServer prompt p t (app w) = Some (b, a') ->
    step w (mkWorld a' (answered w))
| StepOpenShell w origin p si a' :
    openShell origin p si (app w) = Some (tt, a') ->
    step w (mkWorld a' (answered w))
| StepOpenShellCollection w collection fp a' :
    openShellCollection collection fp (app w) = Some (tt, a') ->
    step w (mkWorld a' (answered w))
| StepOpenShellScript w server script dbName execute shellName cursor fp a' :
    openShellScript server script dbName execute shellName cursor fp (app w) = Some (tt, a') ->
    step w (mkWorld a' (answered w))
| StepOpenShellDatabase w database script execute shellName cursor fp a' :
    openShellDatabase database script execute shellName cursor fp (app w) = Some (tt, a') ->
    step w (mkWorld a' (answered w))
| StepCloseServer w x a' :
    closeServer x (app w) = Some (tt, a') ->
    step w (mkWorld a' (answered w))
| StepCloseShell w sh a' :
    closeShell sh (app w) = Some (tt, a') ->
    step w (mkWorld a' (answered w))
| StepEstablish w h wk p t port err a' :
    In (ASend wk (EstablishSshConnectionRequest h wk p t)) (trace (app w)) ->
    ~ In h (answered w) ->
    handleEstablish (mkEstablishResponse h wk p t port err) (app w) = Some (tt, a') ->
    step w (mkWorld a' (h :: answered w))
| StepListen w ev a' :
    handleListen ev (app w) = Some (tt, a') ->
    step w (mkWorld a' (answered w)).

Inductive steps : World -> World -> Prop :=
| steps_refl w : steps w w
| steps_cons w1 w2 w3 : step w1 w2 -> steps w2 w3 -> steps w1 w3.

(** A run in which the [int] handle counter does not overflow: no step
    lowers it (an increment past [INT_MAX] wraps it to [- 2 ^ 31]). *)
Inductive stepsNoOverflow : World -> World -> Prop :=
| sno_refl w : stepsNoOverflow w w
| sno_cons w1 w2 w3 :
    step w1 w2 -> lastServerHandle (app w1) <= lastServerHandle (app w2) ->
    stepsNoOverflow w2 w3 -> stepsNoOverflow w1 w3.

Definition reachableNoOverflow (w : World) : Prop :=
  exists h0, stepsNoOverflow (mkWorld (initApp h0) []) w.

(** The settings a server built by [continueOpenServer] gets. *)
Definition tunnelEndpoint (type : ConnectionType) (localport : Z) (cs : ConnectionSettings)
    : ConnectionSettings :=
  if tunnelRequired type cs then setServerPort localport (setServerHost "127.0.0.1" cs)
  else cs.

Definition serverLabel (cs : ConnectionSettings) : ServerLabel :=
  if cs_isReplicaSet cs then
    LabelReplicaSet (cs_connectionName cs ++ " [Replica Set]" ++
                     match cs_members cs with m :: _ => m | [] => "" end)%string
  else LabelAddress (cs_serverHost cs) (cs_serverPort cs).

(* ------------------------------------------------------------------ *)
(** ** Auxiliary definitions of the statements and the concrete inputs *)

(** The settings object after the credential prompts of [openServer], and
    whether the call goes on ([false]: a dialog was cancelled). *)
Definition promptPhase (prompt : Prompt) (type : ConnectionType) (cs : ConnectionSettings)
    : ConnectionSettings * bool :=
  let sslPhase (cs1 : ConnectionSettings) :=
    if sslPromptRequired cs1 type then
      match prompt SslPrompt with
      | None => (cs1, false)
      | Some u => (setPemPassPhrase u cs1, true)
      end
    else (cs1, true) in
  if sshPromptRequired cs type then
    match prompt SshPrompt with
    | None => (cs, false)
    | Some u => sslPhase (setAskedPassword u cs)
    end
  else sslPhase cs.

Definition withHeap (s : App) (h : list ConnectionSettings) : App :=
  mkApp (lastServerHandle s) (servers s) (shells s) h (workers s) (trace s).

Definition openServerCommit (connection : ptr) (type : ConnectionType) : M bool :=
  r <- openServerInternal connection type ;;
  push_server r ;;;
  ret true.

(** The settings without the two secrets the prompts store. *)
Definition stripSecrets (c : ConnectionSettings) : ConnectionSettings :=
  setPemPassPhrase "" (setAskedPassword "" c).

(** The state after an [openServer] call that returned [true]. *)
Definition openServerResult (s : App) (p : ptr) (t : ConnectionType)
    (cs cs' : ConnectionSettings) : App :=
  let h := wrap32 (lastServerHandle s + 1) in
  let pub := if isPrimary t then [APublish ConnectingEvent] else [] in
  let hp := list_set (heap s) p cs' in
  if tunnelRequired t cs then
    mkApp h (servers s ++ [None]) (shells s) (hp ++ [cs'])
      (workers s ++ [List.length (heap s)])
      (trace s ++ AIssueHandle h :: pub ++
         [ALog (MsgCreatingTunnel (ssh_host (cs_ssh cs)) (ssh_port (cs_ssh cs))) Info;
          ASend (List.length (workers s))
            (EstablishSshConnectionRequest h (List.length (workers s)) (List.length (heap s)) t)])
  else
    mkApp h (servers s ++ [Some (mkMongoServer h (List.length (heap s)) t)]) (shells s)
      (hp ++ [cs']) (workers s)
      (trace s ++ AIssueHandle h :: pub ++
         [ARunWorkerThread h; ALog (MsgConnecting (serverLabel cs)) Info; ATryConnect h]).

(** Live handles and requested handles were issued, live handles are
    distinct, and a requested handle has a live server only once its
    establish request has been answered. *)
Definition Inv (w : World) : Prop :=
  let a := app w in
  0 <= lastServerHandle a <= INT_MAX /\
  (forall x, In x (serverHandles (servers a)) -> 1 <= x <= lastServerHandle a) /\
  NoDup (serverHandles (servers a)) /\
  (forall x, In x (establishRequests (trace a)) ->
     1 <= x <= lastServerHandle a /\
     (In x (serverHandles (servers a)) -> In x (answered w))).

Definition noSsl : SslSettings := mkSslSettings false false false "" "".

Definition sshSettings (ask : bool) : SshSettings :=
  mkSshSettings true ask "password" "gateway" 22 "robo" "" "".

Definition plainSettings : ConnectionSettings :=
  mkConnectionSettings "local" "localhost" 27017 "" false []
    (mkSshSettings false false "password" "" 22 "" "" "") noSsl.

Definition tunnelSettings (ask : bool) : ConnectionSettings :=
  mkConnectionSettings "remote" "db.internal" 27017 "" false [] (sshSettings ask) noSsl.

Definition noPrompt : Prompt := fun _ => None.
Definition answerPrompt (u : string) : Prompt := fun _ => Some u.

Definition sampleScript : ScriptInfo := mkScriptInfo "db.stats()" true "test" (0, -2) "test" "".

Definition stateOf {A} (r : option (A * App)) : App :=
  match r with Some (_, a) => a | None => initApp [] end.

(** After one Primary open through a tunnel. *)
Definition tunnelOpened : App :=
  stateOf (openServer noPrompt 0%nat ConnectionPrimary (initApp [tunnelSettings false])).

(** After one Secondary open without a tunnel (handle 1 is live). *)
Definition plainOpened : App :=
  stateOf (openServer noPrompt 0%nat ConnectionSecondary (initApp [plainSettings])).

(** The establish response of the tunnel worker of [tunnelOpened]. *)
Definition tunnelResponse (err : option string) : EstablishSshConnectionResponse :=
  mkEstablishResponse 1 0%nat 1%nat ConnectionPrimary 40000 err.

(** The handles issued by [n] calls that each issue one, from counter [z]. *)
Fixpoint wrapSeq (z : Z) (n : nat) : list Z :=
  match n with O => [] | S k => wrap32 (z + 1) :: wrapSeq (wrap32 (z + 1)) k end.

(** The counter after [n] increments from [z]. *)
Fixpoint iterWrap (z : Z) (n : nat) : Z :=
  match n with O => z | S k => iterWrap (wrap32 (z + 1)) k end.

Definition secondaryCall : Prompt * ptr * ConnectionType := (noPrompt, 0%nat, ConnectionSecondary).

Definition sampleHeap : list ConnectionSettings := [plainSettings; tunnelSettings true].

(** A Secondary open, a declined Primary open through a tunnel, a Primary
    open without a tunnel. *)
Definition sampleCalls : list (Prompt * ptr * ConnectionType) :=
  [secondaryCall; (noPrompt, 1%nat, ConnectionPrimary); (noPrompt, 0%nat, ConnectionPrimary)].

(** The handles [1, 2, ..., n]. *)
Definition issuedUpTo (n : Z) : list Z := map Z.of_nat (seq 1 (Z.to_nat n)).

(** A shell of [s] owned by [App] whose server is [srv]. *)
Definition ownsShellOf (s : App) (srv : MongoServer) : Prop :=
  exists sh, In sh (shells s) /\ shell_server sh = srv.

Definition originServer : MongoServer := mkMongoServer 1 1%nat ConnectionPrimary.
Definition sampleDatabase : MongoDatabase := mkMongoDatabase originServer "test".
Definition sampleCollection : MongoCollection := mkMongoCollection sampleDatabase "a\b".

(* ------------------------------------------------------------------ *)
(** ** Lemmas on the heap and the monad *)

Lemma nth_error_snoc_last {A} (l : list A) (x : A) :
  nth_error (l ++ [x]) (List.length l) = Some x.
Proof. rewrite nth_error_app2, Nat.sub_diag; reflexivity. Qed.

Lemma nth_error_snoc_lt {A} (l : list A) (x y : A) (p : nat) :
  nth_error l p = Some y -> nth_error (l ++ [x]) p = Some y.
Proof.
  intros H. rewrite nth_error_app1; [exact H|].
  apply nth_error_Some. congruence.
Qed.

Lemma list_set_snoc_last {A} (l : list A) (x y : A) :
  list_set (l ++ [x]) (List.length l) y = l ++ [y].
Proof. induction l as [|a l IH]; simpl; [reflexivity|]. now rewrite IH. Qed.

Lemma list_set_length {A} (l : list A) n x : List.length (list_set l n x) = List.length l.
Proof.
  revert n; induction l as [|a l IH]; intros [|n]; simpl; auto.
Qed.

Lemma nth_error_list_set_eq {A} (l : list A) n x y :
  nth_error l n = Some y -> nth_error (list_set l n x) n = Some x.
Proof.
  revert n; induction l as [|a l IH]; intros [|n] H; simpl in *; try discriminate; auto.
Qed.

Lemma nth_error_list_set_ne {A} (l : list A) n m x :
  n <> m -> nth_error (list_set l n x) m = nth_error l m.
Proof.
  revert n m; induction l as [|a l IH]; intros [|n] [|m] H; simpl; auto; congruence.
Qed.

Ltac unfold_M :=
  unfold bind, ret, emit, get_settings, set_settings, clone, new_worker, incr_handle,
    push_server, push_shell in *.

Lemma continueOpenServer_eq s h p t port cs :
  nth_error (heap s) p = Some cs ->
  continueOpenServer h p t port s =
  Some (mkMongoServer h (List.length (heap s)) t,
        mkApp (lastServerHandle s) (servers s) (shells s)
          (heap s ++ [tunnelEndpoint t port cs]) (workers s)
          (trace s ++ [ARunWorkerThread h; ALog (MsgConnecting (serverLabel cs)) Info;
                       ATryConnect h])).
Proof.
  intros H. unfold continueOpenServer, tunnelEndpoint, tunnelRequired, serverLabel. unfold_M.
  cbn. rewrite H. cbn. rewrite nth_error_snoc_last. cbn.
  destruct (isPrimaryOrTest t && negb (cs_isReplicaSet cs) && ssh_enabled (cs_ssh cs)).
  - cbn. rewrite nth_error_snoc_last, list_set_snoc_last. cbn.
    rewrite nth_error_snoc_lt with (y := cs) by exact H.
    simpl. now rewrite <- !app_assoc.
  - cbn. rewrite nth_error_snoc_lt with (y := cs) by exact H.
    simpl. now rewrite <- !app_assoc.
Qed.

Lemma tunnelEndpoint_no_tunnel t port cs :
  tunnelRequired t cs = false -> tunnelEndpoint t port cs = cs.
Proof. unfold tunnelEndpoint. now intros ->. Qed.

Lemma openServerInternal_guard t cs :
  isSecondary t || negb (ssh_enabled (cs_ssh cs)) || cs_isReplicaSet cs
  = negb (tunnelRequired t cs).
Proof.
  unfold tunnelRequired.
  destruct t, (ssh_enabled (cs_ssh cs)), (cs_isReplicaSet cs); reflexivity.
Qed.

(** The effect of [openServerInternal], on both paths. *)
Lemma openServerInternal_eq s p t cs :
  nth_error (heap s) p = Some cs ->
  openServerInternal p t s =
  let h := wrap32 (lastServerHandle s + 1) in
  let pub := if isPrimary t then [APublish ConnectingEvent] else [] in
  if tunnelRequired t cs then
    Some (None,
          mkApp h (servers s) (shells s) (heap s ++ [cs])
            (workers s ++ [List.length (heap s)])
            (trace s ++ AIssueHandle h :: pub ++
               [ALog (MsgCreatingTunnel (ssh_host (cs_ssh cs)) (ssh_port (cs_ssh cs))) Info;
                ASend (List.length (workers s))
                  (EstablishSshConnectionRequest h (List.length (workers s))
                     (List.length (heap s)) t)]))
  else
    Some (Some (mkMongoServer h (List.length (heap s)) t),
          mkApp h (servers s) (shells s) (heap s ++ [cs]) (workers s)
            (trace s ++ AIssueHandle h :: pub ++
               [ARunWorkerThread h; ALog (MsgConnecting (serverLabel cs)) Info;
                ATryConnect h])).
Proof.
  intros H. unfold openServerInternal. unfold_M. cbn -[continueOpenServer].
  destruct (isPrimary t); cbn -[continueOpenServer]; rewrite H;
    rewrite openServerInternal_guard; cbn -[continueOpenServer];
    destruct (tunnelRequired t cs) eqn:E; cbn -[continueOpenServer].
  - rewrite ?H. simpl. now rewrite <- !app_assoc.
  - rewrite continueOpenServer_eq with (cs := cs) by exact H.
    rewrite tunnelEndpoint_no_tunnel by exact E. simpl. now rewrite <- !app_assoc.
  - rewrite ?H. simpl. now rewrite <- !app_assoc.
  - rewrite continueOpenServer_eq with (cs := cs) by exact H.
    rewrite tunnelEndpoint_no_tunnel by exact E. simpl. now rewrite <- !app_assoc.
Qed.

Lemma list_set_same {A} (l : list A) n x :
  nth_error l n = Some x -> list_set l n x = l.
Proof.
  revert n; induction l as [|a l IH]; intros [|n] H; simpl in *; try discriminate.
  - congruence.
  - now rewrite IH.
Qed.

Lemma list_set_twice {A} (l : list A) n x y :
  list_set (list_set l n x) n y = list_set l n y.
Proof.
  revert n; induction l as [|a l IH]; intros [|n]; simpl; auto. now rewrite IH.
Qed.

Ltac crunch H :=
  repeat (first [ rewrite H | erewrite nth_error_list_set_eq by exact H
                | progress cbn -[openServerInternal push_server] ]).

(** [openServer] is its prompt phase, which only writes the caller's
    settings object, followed (when no dialog was cancelled) by the commit. *)
Lemma openServer_eq prompt s p t cs :
  nth_error (heap s) p = Some cs ->
  openServer prompt p t s =
  let '(cs', ok) := promptPhase prompt t cs in
  let s1 := withHeap s (list_set (heap s) p cs') in
  if ok then openServerCommit p t s1 else Some (false, s1).
Proof.
  intros H. unfold openServer, openServerAfterSshPrompt, askSslPassphrasePromptDialog,
    promptPhase, openServerCommit, withHeap.
  unfold bind, ret, get_settings, set_settings.
  crunch H.
  destruct (sshPromptRequired cs t) eqn:Essh.
  - destruct (prompt SshPrompt) as [u|] eqn:Ep; crunch H.
    + replace (sslPromptRequired (setAskedPassword u cs) t) with (sslPromptRequired cs t)
        by reflexivity.
      destruct (sslPromptRequired cs t) eqn:Essl.
      * destruct (prompt SslPrompt) as [v|] eqn:Eq; crunch H.
        -- now rewrite list_set_twice.
        -- reflexivity.
      * reflexivity.
    + rewrite list_set_same with (x := cs) by exact H. now destruct s.
  - destruct (sslPromptRequired cs t) eqn:Essl.
    + destruct (prompt SslPrompt) as [v|] eqn:Eq; crunch H; rewrite ?Essl, ?Eq; crunch H.
      * reflexivity.
      * rewrite list_set_same with (x := cs) by exact H. now destruct s.
    + crunch H; rewrite Essl; crunch H. rewrite list_set_same with (x := cs) by exact H. now destruct s.
Qed.

Lemma promptPhase_strip prompt t cs cs' ok :
  promptPhase prompt t cs = (cs', ok) -> stripSecrets cs' = stripSecrets cs.
Proof.
  unfold promptPhase.
  destruct (sshPromptRequired cs t);
    [destruct (prompt SshPrompt) as [u|]; [|intros [=]; subst; reflexivity]|];
    (destruct (sslPromptRequired _ t);
      [destruct (prompt SslPrompt) as [v|]|]); intros [=]; subst; reflexivity.
Qed.

Lemma tunnelRequired_strip t c : tunnelRequired t (stripSecrets c) = tunnelRequired t c.
Proof. reflexivity. Qed.

Lemma serverLabel_strip c : serverLabel (stripSecrets c) = serverLabel c.
Proof. reflexivity. Qed.

Lemma ssh_host_strip c : ssh_host (cs_ssh (stripSecrets c)) = ssh_host (cs_ssh c).
Proof. reflexivity. Qed.

Lemma ssh_port_strip c : ssh_port (cs_ssh (stripSecrets c)) = ssh_port (cs_ssh c).
Proof. reflexivity. Qed.

Lemma promptPhase_same prompt t cs cs' ok :
  promptPhase prompt t cs = (cs', ok) ->
  tunnelRequired t cs' = tunnelRequired t cs /\ serverLabel cs' = serverLabel cs /\
  ssh_host (cs_ssh cs') = ssh_host (cs_ssh cs) /\ ssh_port (cs_ssh cs') = ssh_port (cs_ssh cs).
Proof.
  intros E. apply promptPhase_strip in E.
  rewrite <- (tunnelRequired_strip t cs'), <- (serverLabel_strip cs'),
    <- (ssh_host_strip cs'), <- (ssh_port_strip cs'), E.
  repeat split; reflexivity.
Qed.

Lemma openServer_result prompt s p t cs b s' :
  nth_error (heap s) p = Some cs ->
  openServer prompt p t s = Some (b, s') ->
  exists cs', promptPhase prompt t cs = (cs', b) /\
    s' = if b then openServerResult s p t cs cs' else withHeap s (list_set (heap s) p cs').
Proof.
  intros H E. rewrite openServer_eq with (cs := cs) in E by exact H.
  destruct (promptPhase prompt t cs) as [cs' ok] eqn:Ep.
  exists cs'. destruct (promptPhase_same _ _ _ _ _ Ep) as (Et & El & Eh & Epo).
  destruct ok.
  - unfold openServerCommit, bind in E.
    rewrite openServerInternal_eq with (cs := cs') in E
      by (simpl; eapply nth_error_list_set_eq; exact H).
    unfold openServerResult, withHeap in *. simpl in E.
    rewrite list_set_length, Et, El, Eh, Epo in E.
    destruct (tunnelRequired t cs); unfold push_server, ret in E; simpl in E;
      injection E as <- <-; split; reflexivity.
  - injection E as <- <-. split; reflexivity.
Qed.

Lemma liveServers_app l1 l2 : liveServers (l1 ++ l2) = liveServers l1 ++ liveServers l2.
Proof. induction l1 as [|[x|] l1 IH]; simpl; try rewrite IH; reflexivity. Qed.

Lemma serverHandles_app l1 l2 : serverHandles (l1 ++ l2) = serverHandles l1 ++ serverHandles l2.
Proof. unfold serverHandles. now rewrite liveServers_app, map_app. Qed.

Lemma establishRequests_app l1 l2 :
  establishRequests (l1 ++ l2) = establishRequests l1 ++ establishRequests l2.
Proof.
  induction l1 as [|a l1 IH]; simpl; [reflexivity|].
  destruct a as [| |w r| | | | |]; try destruct r; simpl; rewrite ?IH; reflexivity.
Qed.

Lemma issuedHandles_app l1 l2 : issuedHandles (l1 ++ l2) = issuedHandles l1 ++ issuedHandles l2.
Proof.
  induction l1 as [|a l1 IH]; simpl; [reflexivity|].
  destruct a; simpl; rewrite ?IH; reflexivity.
Qed.

Lemma published_app l1 l2 : published (l1 ++ l2) = published l1 ++ published l2.
Proof.
  induction l1 as [|a l1 IH]; simpl; [reflexivity|].
  destruct a; simpl; rewrite ?IH; reflexivity.
Qed.

Lemma establishRequests_In tr wk h p t :
  In (ASend wk (EstablishSshConnectionRequest h wk p t)) tr -> In h (establishRequests tr).
Proof.
  induction tr as [|a tr IH]; simpl; [tauto|].
  intros [->|H]; [simpl; left; reflexivity|].
  destruct a as [| |w r| | | | |]; try destruct r; simpl; auto.
Qed.

Lemma In_serverHandles srv l : In (Some srv) l -> In (srv_handle srv) (serverHandles l).
Proof.
  unfold serverHandles. induction l as [|[x|] l IH]; simpl; [tauto| |]; intros [E|E];
    try discriminate; try (injection E as ->; left; reflexivity); auto.
Qed.

Lemma tunnelRequired_secondary cs : tunnelRequired ConnectionSecondary cs = false.
Proof. reflexivity. Qed.

(** The effect of the [openShell] primitive. *)
Lemma openShell_eq origin s p cs si :
  nth_error (heap s) p = Some cs ->
  let h := wrap32 (lastServerHandle s + 1) in
  let sc := mkMongoServer h (List.length (heap s)) ConnectionSecondary in
  let shell := mkMongoShell sc si in
  let tr := trace s ++ [AIssueHandle h; ARunWorkerThread h;
                        ALog (MsgConnecting (serverLabel cs)) Info; ATryConnect h] in
  openShell origin p si s =
  match origin with
  | Some o =>
      Some (tt, mkApp h (servers s ++ [Some sc]) (shells s ++ [shell]) (heap s ++ [cs]) (workers s)
                  (tr ++ [ASubscribe o shell; APublish (OpeningShellEvent shell); AExecute shell]))
  | None => Some (tt, mkApp h (servers s) (shells s) (heap s ++ [cs]) (workers s) tr)
  end.
Proof.
  intros H. unfold openShell. unfold bind at 1.
  rewrite openServerInternal_eq with (cs := cs) by exact H.
  rewrite tunnelRequired_secondary. simpl.
  destruct origin; unfold_M; simpl; rewrite <- ?app_assoc; reflexivity.
Qed.

(** The effect of the establish handler on a success. *)
Lemma handleEstablish_success s ev cs :
  est_error ev = None ->
  nth_error (heap s) (est_settings ev) = Some cs ->
  let h := est_serverHandle ev in
  let t := est_connectionType ev in
  handleEstablish ev s =
  Some (tt, mkApp (lastServerHandle s)
              (servers s ++ [Some (mkMongoServer h (List.length (heap s)) t)]) (shells s)
              (heap s ++ [tunnelEndpoint t (est_localport ev) cs]) (workers s)
              (trace s ++ [ALog MsgTunnelCreated Info; ARunWorkerThread h;
                           ALog (MsgConnecting (serverLabel cs)) Info; ATryConnect h;
                           ASend (est_worker ev) (ListenSshConnectionRequest h t)])).
Proof.
  intros E H. unfold handleEstablish. rewrite E. unfold bind at 1, emit at 1.
  unfold bind at 1. rewrite continueOpenServer_eq with (cs := cs) by exact H.
  unfold_M. simpl. now rewrite <- !app_assoc.
Qed.

Lemma handleEstablish_error s ev msg :
  est_error ev = Some msg ->
  handleEstablish ev s =
  Some (tt, mkApp (lastServerHandle s) (servers s) (shells s) (heap s) (workers s)
              (trace s ++ [APublish (ConnectionFailedEvent (est_serverHandle ev)
                                       (est_connectionType ev) msg SshConnection)])).
Proof. intros E. unfold handleEstablish. now rewrite E. Qed.

Lemma handleListen_eq s ev :
  handleListen ev s =
  Some (tt, mkApp (lastServerHandle s) (servers s) (shells s) (heap s) (workers s)
              (trace s ++ [match lst_error ev with
                           | Some msg => APublish (ConnectionFailedEvent (lst_serverHandle ev)
                                           (lst_connectionType ev) msg SshChannel)
                           | None => ALog MsgTunnelClosed Error
                           end])).
Proof. unfold handleListen. destruct (lst_error ev); reflexivity. Qed.

Lemma openServer_some prompt p t s r :
  openServer prompt p t s = Some r -> exists cs, nth_error (heap s) p = Some cs.
Proof.
  unfold openServer, bind at 1, get_settings at 1.
  destruct (nth_error (heap s) p); [eauto | discriminate].
Qed.

Lemma openShell_some origin p si s r :
  openShell origin p si s = Some r -> exists cs, nth_error (heap s) p = Some cs.
Proof.
  unfold openShell, openServerInternal. unfold_M. simpl.
  destruct (isPrimary ConnectionSecondary); simpl;
    destruct (nth_error (heap s) p); [eauto | discriminate | eauto | discriminate].
Qed.

(* ------------------------------------------------------------------ *)
(** ** The handle invariant of the orchestrator *)

Lemma wrap32_small z : - 2 ^ 31 <= z <= INT_MAX -> wrap32 z = z.
Proof.
  unfold wrap32, INT_MAX. intros Hz. rewrite Z.mod_small; lia.
Qed.

Lemma Inv_init h0 : Inv (mkWorld (initApp h0) []).
Proof.
  unfold Inv, initApp, INT_MAX; simpl. repeat split; try lia; try tauto. constructor.
Qed.

Lemma Inv_same w a' :
  Inv w ->
  lastServerHandle a' = lastServerHandle (app w) ->
  serverHandles (servers a') = serverHandles (servers (app w)) ->
  establishRequests (trace a') = establishRequests (trace (app w)) ->
  Inv (mkWorld a' (answered w)).
Proof.
  unfold Inv; simpl. intros (H1 & H2 & H3 & H4) El Es Ee.
  rewrite El, Es, Ee. auto.
Qed.

Lemma Inv_fresh w a' :
  Inv w ->
  lastServerHandle (app w) < INT_MAX ->
  lastServerHandle a' = lastServerHandle (app w) + 1 ->
  (serverHandles (servers a') = serverHandles (servers (app w)) ++ [lastServerHandle a'] /\
   establishRequests (trace a') = establishRequests (trace (app w))) \/
  (serverHandles (servers a') = serverHandles (servers (app w)) /\
   establishRequests (trace a') = establishRequests (trace (app w)) ++ [lastServerHandle a']) \/
  (serverHandles (servers a') = serverHandles (servers (app w)) /\
   establishRequests (trace a') = establishRequests (trace (app w))) ->
  Inv (mkWorld a' (answered w)).
Proof.
  unfold Inv; simpl. intros (H1 & H2 & H3 & H4) Hlt El Hcase.
  rewrite El in *.
  assert (Hfs : ~ In (lastServerHandle (app w) + 1) (serverHandles (servers (app w))))
    by (intros Hin; apply H2 in Hin; lia).
  assert (Hfe : ~ In (lastServerHandle (app w) + 1) (establishRequests (trace (app w))))
    by (intros Hin; apply H4 in Hin; lia).
  destruct Hcase as [[Es Ee] | [[Es Ee] | [Es Ee]]]; rewrite Es, Ee;
    (split; [lia|]).
  - split; [intros x Hx; apply in_app_or in Hx as [Hx|[<-|[]]]; [apply H2 in Hx|]; lia|].
    split.
    + apply NoDup_app; auto using NoDup_cons, NoDup_nil.
      intros x Hx [<-|[]]. contradiction.
    + intros x Hx. destruct (H4 x Hx) as [Hb Ha]. split; [lia|].
      intros Hx'. apply in_app_or in Hx' as [Hx'|[<-|[]]]; auto. contradiction.
  - split; [intros x Hx; apply H2 in Hx; lia|]. split; auto.
    intros x Hx. apply in_app_or in Hx as [Hx|[<-|[]]].
    + destruct (H4 x Hx) as [Hb Ha]. split; [lia|auto].
    + split; [lia|]. intros Hin. contradiction.
  - split; [intros x Hx; apply H2 in Hx; lia|]. split; auto.
    intros x Hx. destruct (H4 x Hx) as [Hb Ha]. split; [lia|auto].
Qed.

Lemma serverHandles_filter f l x :
  In x (serverHandles (filter f l)) -> In x (serverHandles l).
Proof.
  unfold serverHandles. induction l as [|o l IH]; simpl; [tauto|].
  destruct (f o), o as [y|]; simpl; intuition.
Qed.

Lemma serverHandles_filter_NoDup f l :
  NoDup (serverHandles l) -> NoDup (serverHandles (filter f l)).
Proof.
  unfold serverHandles. induction l as [|o l IH]; simpl; [auto|].
  destruct (f o), o as [y|]; simpl; intros Hn; auto.
  - inversion Hn; subst. constructor; auto.
    intros Hin. apply (serverHandles_filter f l) in Hin. contradiction.
  - inversion Hn; auto.
Qed.

Lemma Inv_filter w a' f :
  Inv w ->
  lastServerHandle a' = lastServerHandle (app w) ->
  servers a' = filter f (servers (app w)) ->
  trace a' = trace (app w) ->
  Inv (mkWorld a' (answered w)).
Proof.
  unfold Inv; simpl. intros (H1 & H2 & H3 & H4) El Es Et.
  rewrite El, Es, Et. split; [exact H1|]. split; [|split].
  - intros x Hx. apply H2, (serverHandles_filter f), Hx.
  - apply serverHandles_filter_NoDup, H3.
  - intros x Hx. destruct (H4 x Hx) as [Hb Ha]. split; [exact Hb|].
    intros Hs. apply Ha, (serverHandles_filter f), Hs.
Qed.

Lemma serverHandles_some x : serverHandles [Some x] = [srv_handle x].
Proof. reflexivity. Qed.

Lemma serverHandles_none : serverHandles [None] = [].
Proof. reflexivity. Qed.

Ltac norm_handles :=
  simpl; rewrite ?serverHandles_app, ?establishRequests_app, ?serverHandles_some,
    ?serverHandles_none; simpl; rewrite ?app_nil_r.

Lemma wrap32_succ_no_overflow z :
  0 <= z <= INT_MAX -> z <= wrap32 (z + 1) -> wrap32 (z + 1) = z + 1 /\ z < INT_MAX.
Proof.
  intros Hz Hle. destruct (Z.eq_dec z INT_MAX) as [->|Hne].
  - exfalso. replace (wrap32 (INT_MAX + 1)) with (- 2 ^ 31) in Hle by reflexivity.
    unfold INT_MAX in Hle. lia.
  - split; [apply wrap32_small; unfold INT_MAX in *; lia|lia].
Qed.

Lemma set_settings_bind_some {A} p f (k : M A) s r :
  (set_settings p f ;;; k) s = Some r ->
  exists s0, k s0 = Some r /\ lastServerHandle s0 = lastServerHandle s /\
    servers s0 = servers s /\ shells s0 = shells s /\ workers s0 = workers s /\ trace s0 = trace s.
Proof.
  unfold bind, set_settings. destruct (nth_error (heap s) p); [|discriminate].
  intros E. eexists. split; [exact E|]. repeat split.
Qed.

Lemma ret_then {A} (k : M A) s : (ret tt ;;; k) s = k s.
Proof. reflexivity. Qed.

(** The [openShell] primitive as a step. *)
Lemma openShell_step_facts w origin p si a' :
  Inv w -> lastServerHandle (app w) <= lastServerHandle a' ->
  openShell origin p si (app w) = Some (tt, a') ->
  Inv (mkWorld a' (answered w)) /\ lastServerHandle (app w) <= lastServerHandle a' /\
  (forall x, In x (serverHandles (servers a')) ->
     In x (serverHandles (servers (app w))) \/ lastServerHandle (app w) < x).
Proof.
  intros HI Hm E. pose proof HI as (H1 & H2 & H3 & H4).
  destruct (openShell_some _ _ _ _ _ E) as [cs Hcs].
  rewrite openShell_eq with (cs := cs) in E by exact Hcs.
  assert (Hl : lastServerHandle a' = wrap32 (lastServerHandle (app w) + 1))
    by (destruct origin; injection E as <-; reflexivity).
  rewrite Hl in Hm. destruct (wrap32_succ_no_overflow _ H1 Hm) as [Eh Hlt].
  rewrite Eh in E. split; [|split; [lia|]].
  - destruct origin; injection E as <-.
    + apply Inv_fresh; auto; left; norm_handles; split; reflexivity.
    + apply Inv_fresh; auto; right; right; norm_handles; split; reflexivity.
  - destruct origin; injection E as <-; norm_handles; [|auto].
    intros x Hx. apply in_app_or in Hx as [Hx|[<-|[]]]; auto. right; simpl; lia.
Qed.

(** An [openShell] overload is the primitive on a state that differs only
    in its settings objects. *)
Lemma openShell_overload_step_facts w a' :
  Inv w -> lastServerHandle (app w) <= lastServerHandle a' ->
  (exists s0 origin p si, openShell origin p si s0 = Some (tt, a') /\
     lastServerHandle s0 = lastServerHandle (app w) /\ servers s0 = servers (app w) /\
     trace s0 = trace (app w)) ->
  Inv (mkWorld a' (answered w)) /\ lastServerHandle (app w) <= lastServerHandle a' /\
  (forall x, In x (serverHandles (servers a')) ->
     In x (serverHandles (servers (app w))) \/ lastServerHandle (app w) < x).
Proof.
  intros HI Hm (s0 & origin & p & si & E & L0 & S0 & T0).
  assert (HI0 : Inv (mkWorld s0 (answered w))) by (apply Inv_same; auto; congruence).
  rewrite <- L0 in Hm |- *. rewrite <- S0.
  exact (openShell_step_facts (mkWorld s0 (answered w)) origin p si a' HI0 Hm E).
Qed.

Lemma openShell_overloads_reduce s a' :
  ((exists collection fp, openShellCollection collection fp s = Some (tt, a')) \/
   (exists server script dbName execute shellName cursor fp,
      openShellScript server script dbName execute shellName cursor fp s = Some (tt, a')) \/
   (exists database script execute shellName cursor fp,
      openShellDatabase database script execute shellName cursor fp s = Some (tt, a'))) ->
  exists s0 origin p si, openShell origin p si s0 = Some (tt, a') /\
     lastServerHandle s0 = lastServerHandle s /\ servers s0 = servers s /\ trace s0 = trace s.
Proof.
  intros [(c & fp & E)|[(srv & sc & db & ex & sn & cur & fp & E)|(d & sc & ex & sn & cur & fp & E)]].
  - unfold openShellCollection in E. apply set_settings_bind_some in E.
    destruct E as (s0 & E & L & S & _ & _ & T). exists s0; do 3 eexists; eauto.
  - unfold openShellScript in E. destruct (negb (String.eqb db EmptyString)).
    + apply set_settings_bind_some in E.
      destruct E as (s0 & E & L & S & _ & _ & T). exists s0; do 3 eexists; eauto.
    + rewrite ret_then in E. exists s; do 3 eexists; eauto.
  - unfold openShellDatabase in E. apply set_settings_bind_some in E.
    destruct E as (s0 & E & L & S & _ & _ & T). exists s0; do 3 eexists; eauto.
Qed.

(** Every step that does not lower the counter keeps the invariant; a
    handle that becomes live was live, is newly issued, or has just been
    answered. *)
Lemma step_Inv w w' :
  step w w' -> lastServerHandle (app w) <= lastServerHandle (app w') -> Inv w ->
  Inv w' /\ lastServerHandle (app w) <= lastServerHandle (app w') /\
  (forall x, In x (answered w) -> In x (answered w')) /\
  (forall x, In x (serverHandles (servers (app w'))) ->
     In x (serverHandles (servers (app w))) \/ lastServerHandle (app w) < x \/
     (~ In x (answered w) /\ In x (answered w'))).
Proof.
  intros Hs Hm HI. pose proof HI as (H1 & H2 & H3 & H4).
  assert (Hov : forall a', lastServerHandle (app w) <= lastServerHandle a' ->
            (exists s0 origin p si, openShell origin p si s0 = Some (tt, a') /\
               lastServerHandle s0 = lastServerHandle (app w) /\ servers s0 = servers (app w) /\
               trace s0 = trace (app w)) ->
            Inv (mkWorld a' (answered w)) /\ lastServerHandle (app w) <= lastServerHandle a' /\
            (forall x, In x (answered w) -> In x (answered w)) /\
            (forall x, In x (serverHandles (servers a')) ->
               In x (serverHandles (servers (app w))) \/ lastServerHandle (app w) < x \/
               (~ In x (answered w) /\ In x (answered w)))).
  { intros a' Hm' Hex. destruct (openShell_overload_step_facts w a' HI Hm' Hex) as (A & B & C).
    split; [exact A|]. split; [exact B|]. split; [auto|].
    intros x Hx. destruct (C x Hx); auto. }
  destruct Hs as [w prompt p t b a' E | w origin p si a' E | w c fp a' E
                 | w srv sc db ex sn cur fp a' E | w d sc ex sn cur fp a' E
                 | w x0 a' E | w sh a' E
                 | w h wk p t port err a' Hin Hna E | w ev a' E]; simpl in *.
  - (* openServer *)
    destruct (openServer_some _ _ _ _ _ E) as [cs Hcs].
    destruct (openServer_result _ _ _ _ _ _ _ Hcs E) as (cs' & Ep & ->).
    destruct b.
    + assert (Hl : lastServerHandle (openServerResult (app w) p t cs cs') =
                   wrap32 (lastServerHandle (app w) + 1))
        by (unfold openServerResult; destruct (tunnelRequired t cs); reflexivity).
      rewrite Hl in Hm. destruct (wrap32_succ_no_overflow _ H1 Hm) as [Eh Hlt].
      unfold openServerResult. rewrite Eh.
      destruct (tunnelRequired t cs).
      * split; [apply Inv_fresh; auto; right; left; norm_handles;
                destruct (isPrimary t); simpl; rewrite ?app_nil_r; split; reflexivity|].
        split; [simpl; lia|]. split; [auto|]. norm_handles. auto.
      * split; [apply Inv_fresh; auto; left; norm_handles;
                destruct (isPrimary t); simpl; rewrite ?app_nil_r; split; reflexivity|].
        split; [simpl; lia|]. split; [auto|]. norm_handles.
        intros x Hx. apply in_app_or in Hx as [Hx|[<-|[]]]; auto. right; left; simpl; lia.
    + unfold withHeap. split; [apply Inv_same; auto|]. simpl. split; [lia|auto].
  - (* openShell *)
    apply Hov; [exact Hm|]. exists (app w), origin, p, si. auto.
  - (* openShell on a collection *)
    apply Hov; [exact Hm|]. apply openShell_overloads_reduce. left. eauto.
  - (* openShell on a server with a script *)
    apply Hov; [exact Hm|]. apply openShell_overloads_reduce. right; left. eauto 10.
  - (* openShell on a database *)
    apply Hov; [exact Hm|]. apply openShell_overloads_reduce. right; right. eauto 10.
  - (* closeServer *)
    unfold closeServer in E. injection E as <-.
    split; [eapply Inv_filter; simpl; eauto|]. simpl. split; [lia|]. split; [auto|].
    intros x Hx. left. eapply serverHandles_filter, Hx.
  - (* closeShell *)
    unfold closeShell in E. destruct (existsb (MongoShell_eqb sh) (shells (app w))).
    + unfold bind, closeServer, erase_shell in E. simpl in E. injection E as <-.
      split; [eapply Inv_filter; simpl; eauto|]. simpl. split; [lia|]. split; [auto|].
      intros x Hx. left. eapply serverHandles_filter, Hx.
    + injection E as <-. destruct w as [a ans]. simpl in *.
      split; [exact HI|]. split; [lia|]. auto.
  - (* establish response *)
    apply establishRequests_In in Hin. destruct (H4 h Hin) as [Hb Ha].
    destruct err as [msg|].
    + rewrite handleEstablish_error with (msg := msg) in E by reflexivity.
      injection E as <-. unfold Inv; simpl. norm_handles.
      split; [split; [exact H1|split; [exact H2|split; [exact H3|]]];
              intros x Hx; destruct (H4 x Hx) as [Hx1 Hx2]; split; auto|].
      split; [lia|]. split; [auto|]. auto.
    + unfold handleEstablish in E; simpl in E.
      unfold bind at 1, emit at 1 in E. unfold bind at 1 in E.
      destruct (nth_error (heap (app w)) p) as [cs|] eqn:Hcs.
      2:{ unfold continueOpenServer, bind, clone in E. simpl in E. rewrite Hcs in E.
          discriminate. }
      change (handleEstablish (mkEstablishResponse h wk p t port None) (app w) = Some (tt, a'))
        in E.
      rewrite handleEstablish_success with (cs := cs) in E by auto.
      injection E as <-. simpl.
      assert (Hfresh : ~ In h (serverHandles (servers (app w)))) by (intros X; auto).
      split.
      * unfold Inv; simpl. norm_handles. split; [lia|]. split; [|split].
        -- intros x Hx. apply in_app_or in Hx as [Hx|[<-|[]]]; auto.
        -- apply NoDup_app; auto using NoDup_cons, NoDup_nil.
           intros x Hx [<-|[]]. contradiction.
        -- intros x Hx. destruct (H4 x Hx) as [Hb' Ha']. split; [exact Hb'|].
           intros Hx'. apply in_app_or in Hx' as [Hx'|[<-|[]]]; [right; auto|left; auto].
      * split; [lia|]. split; [intros; right; auto|]. norm_handles.
        intros x Hx. apply in_app_or in Hx as [Hx|[<-|[]]]; [auto|].
        right; right. simpl. split; [exact Hna|left; reflexivity].
  - (* listen response *)
    rewrite handleListen_eq in E. injection E as <-.
    split; [apply Inv_same; auto; simpl; norm_handles;
            destruct (lst_error ev); simpl; rewrite ?app_nil_r; reflexivity|].
    simpl. split; [lia|]. auto.
Qed.

Lemma steps_Inv w w' : stepsNoOverflow w w' -> Inv w -> Inv w'.
Proof.
  induction 1 as [w|w1 w2 w3 Hs Hm Hss IH]; auto.
  intros HI. apply IH, (step_Inv _ _ Hs Hm HI).
Qed.

Lemma reachable_Inv w : reachableNoOverflow w -> Inv w.
Proof. intros [h0 Hs]. eapply steps_Inv; [exact Hs|apply Inv_init]. Qed.

Lemma steps_handle_stays_dead h w1 w2 :
  stepsNoOverflow w1 w2 -> Inv w1 -> In h (answered w1) ->
  ~ In h (serverHandles (servers (app w1))) -> h <= lastServerHandle (app w1) ->
  ~ In h (serverHandles (servers (app w2))).
Proof.
  induction 1 as [w|wa wb wc Hs Hm Hss IH]; intros HI Ha Hn Hle; auto.
  destruct (step_Inv _ _ Hs Hm HI) as (HI' & Hl & Hans & Hshape).
  apply IH; auto.
  - intros Hin. destruct (Hshape h Hin) as [X|[X|[X _]]]; [contradiction|lia|contradiction].
  - lia.
Qed.

Lemma nth_error_lt {A} (l : list A) n x : nth_error l n = Some x -> (n < List.length l)%nat.
Proof. intros H. apply nth_error_Some. congruence. Qed.

Lemma openServer_secondary_eq prompt p s cs :
  nth_error (heap s) p = Some cs ->
  openServer prompt p ConnectionSecondary s =
  Some (true, openServerResult s p ConnectionSecondary cs cs).
Proof.
  intros H. rewrite (openServer_eq _ _ _ _ _ H).
  assert (Ep : promptPhase prompt ConnectionSecondary cs = (cs, true)).
  { unfold promptPhase, sshPromptRequired, sslPromptRequired. simpl. rewrite !andb_false_r.
    reflexivity. }
  rewrite Ep. cbv zeta iota. unfold openServerCommit, bind at 1.
  rewrite openServerInternal_eq with (cs := cs) by (eapply nth_error_list_set_eq; exact H).
  unfold openServerResult, withHeap, bind, push_server, ret. simpl.
  rewrite list_set_length. reflexivity.
Qed.

Lemma set_settings_then o p f si s cs :
  nth_error (heap s) p = Some cs ->
  (set_settings p f ;;; openShell (Some o) p si) s =
  openShell (Some o) p si (withHeap s (list_set (heap s) p (f cs))).
Proof. intros H. unfold bind at 1, set_settings at 1. rewrite H. reflexivity. Qed.

Lemma openShell_heap_ext origin p si s s' :
  openShell origin p si s = Some (tt, s') -> exists ext, heap s' = heap s ++ ext.
Proof.
  intros E. destruct (openShell_some _ _ _ _ _ E) as [cs H].
  rewrite (openShell_eq origin s p cs si H) in E.
  destruct origin; injection E as <-; eexists; reflexivity.
Qed.

Lemma wrap32_wrap32 a b : wrap32 (wrap32 a + b) = wrap32 (a + b).
Proof.
  unfold wrap32.
  replace ((a + 2 ^ 31) mod 2 ^ 32 - 2 ^ 31 + b + 2 ^ 31) with ((a + 2 ^ 31) mod 2 ^ 32 + b) by ring.
  rewrite Zplus_mod_idemp_l. replace (a + 2 ^ 31 + b) with (a + b + 2 ^ 31) by ring. reflexivity.
Qed.

(** One Secondary open on the settings object 0 as a step. *)
Lemma secondary_open_step w cs :
  nth_error (heap (app w)) 0 = Some cs ->
  exists w1, step w w1 /\ nth_error (heap (app w1)) 0 = Some cs /\
    lastServerHandle (app w1) = wrap32 (lastServerHandle (app w) + 1) /\
    In (lastServerHandle (app w1)) (serverHandles (servers (app w1))).
Proof.
  intros H. exists (mkWorld (openServerResult (app w) 0%nat ConnectionSecondary cs cs) (answered w)).
  split; [apply (StepOpenServer w noPrompt 0%nat ConnectionSecondary true);
          apply openServer_secondary_eq, H|].
  unfold openServerResult. rewrite tunnelRequired_secondary. simpl.
  split; [|split; [reflexivity|]].
  - destruct (heap (app w)) as [|c l]; [discriminate|]. simpl in *. congruence.
  - rewrite serverHandles_app. apply in_or_app. right. left. reflexivity.
Qed.

(** [S n] Secondary opens on the settings object 0, as steps that may
    wrap the counter. *)
Lemma secondary_opens_steps n w cs :
  nth_error (heap (app w)) 0 = Some cs ->
  exists w2, steps w w2 /\ nth_error (heap (app w2)) 0 = Some cs /\
    lastServerHandle (app w2) = wrap32 (lastServerHandle (app w) + Z.of_nat (S n)) /\
    In (lastServerHandle (app w2)) (serverHandles (servers (app w2))).
Proof.
  revert w; induction n as [|n IH]; intros w H.
  - destruct (secondary_open_step w cs H) as (w1 & Hs & H1 & L1 & I1).
    exists w1. split; [eapply steps_cons; [exact Hs|apply steps_refl]|]. auto.
  - destruct (secondary_open_step w cs H) as (w1 & Hs & H1 & L1 & _).
    destruct (IH w1 H1) as (w2 & Hs2 & H2 & L2 & I2).
    exists w2. split; [eapply steps_cons; [exact Hs|exact Hs2]|]. split; [exact H2|].
    split; [|exact I2]. rewrite L2, L1, wrap32_wrap32. f_equal. lia.
Qed.

(* ------------------------------------------------------------------ *)
(** ** Two reachable concrete states *)

Lemma tunnelOpened_reachable : reachableNoOverflow (mkWorld tunnelOpened []).
Proof.
  exists [tunnelSettings false]. eapply sno_cons; [| |apply sno_refl].
  - apply (StepOpenServer (mkWorld (initApp [tunnelSettings false]) []) noPrompt 0%nat
             ConnectionPrimary true). vm_compute; reflexivity.
  - vm_compute. discriminate.
Qed.

Lemma plainOpened_reachable : reachableNoOverflow (mkWorld plainOpened []).
Proof.
  exists [plainSettings]. eapply sno_cons; [| |apply sno_refl].
  - apply (StepOpenServer (mkWorld (initApp [plainSettings]) []) noPrompt 0%nat
             ConnectionSecondary true). vm_compute; reflexivity.
  - vm_compute. discriminate.
Qed.

(* ------------------------------------------------------------------ *)
(** ** Claims *)

(** C2 (amended). In every state reachable without overflowing the [int]
    counter (each establish request answered at most once, by its worker)
    the non-null entries of the server collection have pairwise distinct
    handles. A [ListenSshConnectionResponse] never changes the server
    collection. The handlers keep no pending state: in any state, an
    [EstablishSshConnectionResponse] success whose settings object exists
    appends a server with the handle and type it carries, whether or not
    an open is pending for that handle. *)
Theorem reachable_server_handles_distinct (w : World) :
  reachableNoOverflow w ->
  NoDup (serverHandles (servers (app w))) /\
  (forall s ev, exists a', handleListen ev s = Some (tt, a') /\ servers a' = servers s) /\
  (forall s ev cs, est_error ev = None -> nth_error (heap s) (est_settings ev) = Some cs ->
     exists a', handleEstablish ev s = Some (tt, a') /\
       servers a' = servers s ++
         [Some (mkMongoServer (est_serverHandle ev) (List.length (heap s)) (est_connectionType ev))]).
Proof.
  intros Hr. destruct (reachable_Inv w Hr) as (_ & _ & Hnd & _). split; [exact Hnd|]. split.
  - intros s ev. rewrite handleListen_eq. eexists; split; reflexivity.
  - intros s ev cs Er H. rewrite (handleEstablish_success s ev cs Er H). eexists; split; reflexivity.
Qed.

Lemma reachable_server_handles_distinct_witness :
  reachableNoOverflow (mkWorld tunnelOpened []) /\
  NoDup (serverHandles (servers tunnelOpened)) /\
  (forall s ev, exists a', handleListen ev s = Some (tt, a') /\ servers a' = servers s) /\
  (forall s ev cs, est_error ev = None -> nth_error (heap s) (est_settings ev) = Some cs ->
     exists a', handleEstablish ev s = Some (tt, a') /\
       servers a' = servers s ++
         [Some (mkMongoServer (est_serverHandle ev) (List.length (heap s)) (est_connectionType ev))]).
Proof.
  split; [exact tunnelOpened_reachable|].
  apply (reachable_server_handles_distinct (mkWorld tunnelOpened [])).
  exact tunnelOpened_reachable.
Defined.

(** C2 counterexample. The handlers keep no pending state: after one
    open without a tunnel (handle 1 live, no establish request sent), an
    [EstablishSshConnectionResponse] success for handle 1 appends a second
    server with handle 1. *)
Lemma unmatched_establish_duplicates_handle :
  reachableNoOverflow (mkWorld plainOpened []) /\
  ~ In 1 (establishRequests (trace plainOpened)) /\
  exists a', handleEstablish (mkEstablishResponse 1 0%nat 0%nat ConnectionPrimary 40000 None)
               plainOpened = Some (tt, a') /\
             serverHandles (servers a') = [1; 1] /\
             ~ NoDup (serverHandles (servers a')).
Proof.
  split; [exact plainOpened_reachable|]. split; [vm_compute; tauto|].
  eexists. split; [vm_compute; reflexivity|]. split; [vm_compute; reflexivity|].
  vm_compute. intros Hn. inversion Hn as [|x l Hx Hl]. apply Hx. left; reflexivity.
Qed.

(** C8 (amended). For a pending tunnel-backed open with handle [h] (its
    establish request sent and not yet answered) in a state reachable
    without overflowing the [int] counter, an
    [EstablishSshConnectionResponse] carrying an error publishes exactly
    one [ConnectionFailedEvent] with reason [SshConnection], the handle,
    the type and the message, and issues no handle. No server with handle
    [h] is then in the collection, nor in any later state of a run that
    does not overflow the counter. *)
Theorem establish_error_abandons_handle w h wk p t port msg a1 :
  reachableNoOverflow w ->
  In (ASend wk (EstablishSshConnectionRequest h wk p t)) (trace (app w)) ->
  ~ In h (answered w) ->
  handleEstablish (mkEstablishResponse h wk p t port (Some msg)) (app w) = Some (tt, a1) ->
  published (trace a1) = published (trace (app w)) ++ [ConnectionFailedEvent h t msg SshConnection] /\
  step w (mkWorld a1 (h :: answered w)) /\
  lastServerHandle a1 = lastServerHandle (app w) /\
  forall w2, stepsNoOverflow (mkWorld a1 (h :: answered w)) w2 ->
    ~ In h (serverHandles (servers (app w2))).
Proof.
  intros Hr Hin Hna E.
  assert (Hst : step w (mkWorld a1 (h :: answered w))) by (eapply StepEstablish; eauto).
  pose proof (reachable_Inv w Hr) as HI.
  pose proof HI as (_ & _ & _ & H4).
  destruct (H4 h (establishRequests_In _ _ _ _ _ Hin)) as [Hb Ha].
  rewrite handleEstablish_error with (msg := msg) in E by reflexivity.
  injection E as <-.
  assert (Hm : lastServerHandle (app w) <=
               lastServerHandle (app (mkWorld (mkApp (lastServerHandle (app w)) (servers (app w))
                  (shells (app w)) (heap (app w)) (workers (app w))
                  (trace (app w) ++ [APublish (ConnectionFailedEvent h t msg SshConnection)]))
                  (h :: answered w)))) by (simpl; lia).
  destruct (step_Inv _ _ Hst Hm HI) as (HI1 & _ & _ & _).
  simpl. rewrite published_app. split; [reflexivity|]. split; [exact Hst|]. split; [reflexivity|].
  intros w2 Hs. eapply steps_handle_stays_dead; [exact Hs|exact HI1|simpl; left; reflexivity| |].
  - simpl. intros X. apply Hna, Ha, X.
  - simpl. lia.
Qed.

Lemma establish_error_abandons_handle_witness :
  exists a1,
  reachableNoOverflow (mkWorld tunnelOpened []) /\
  In (ASend 0%nat (EstablishSshConnectionRequest 1 0%nat 1%nat ConnectionPrimary)) (trace tunnelOpened) /\
  ~ In 1 ([] : list Z) /\
  handleEstablish (tunnelResponse (Some "auth failed"%string)) tunnelOpened = Some (tt, a1) /\
  published (trace a1) = published (trace tunnelOpened) ++
    [ConnectionFailedEvent 1 ConnectionPrimary "auth failed"%string SshConnection] /\
  step (mkWorld tunnelOpened []) (mkWorld a1 [1]) /\
  lastServerHandle a1 = lastServerHandle tunnelOpened /\
  forall w2, stepsNoOverflow (mkWorld a1 [1]) w2 -> ~ In 1 (serverHandles (servers (app w2))).
Proof.
  eexists. split; [exact tunnelOpened_reachable|].
  assert (Hin : In (ASend 0%nat (EstablishSshConnectionRequest 1 0%nat 1%nat ConnectionPrimary))
                  (trace tunnelOpened)) by (vm_compute; tauto).
  assert (Hna : ~ In 1 ([] : list Z)) by (simpl; tauto).
  assert (E : handleEstablish (tunnelResponse (Some "auth failed"%string)) tunnelOpened =
              Some (tt, stateOf (handleEstablish (tunnelResponse (Some "auth failed"%string)) tunnelOpened)))
    by (vm_compute; reflexivity).
  split; [exact Hin|]. split; [exact Hna|]. split; [exact E|].
  exact (establish_error_abandons_handle (mkWorld tunnelOpened []) 1 0%nat 1%nat ConnectionPrimary
           40000 "auth failed"%string _ tunnelOpened_reachable Hin Hna E).
Defined.

(** C8 counterexample. The [int] counter wraps: after the error response
    for handle 1, [2 ^ 32] Secondary opens bring the counter round to 1
    again, and the server registered by the last of them has handle 1. *)
Lemma establish_error_handle_reissued :
  exists a1 w2,
    handleEstablish (tunnelResponse (Some "auth failed"%string)) tunnelOpened = Some (tt, a1) /\
    step (mkWorld tunnelOpened []) (mkWorld a1 [1]) /\
    steps (mkWorld a1 [1]) w2 /\ In 1 (serverHandles (servers (app w2))).
Proof.
  set (a1 := stateOf (handleEstablish (tunnelResponse (Some "auth failed"%string)) tunnelOpened)).
  assert (E : handleEstablish (tunnelResponse (Some "auth failed"%string)) tunnelOpened = Some (tt, a1))
    by (vm_compute; reflexivity).
  assert (Hst : step (mkWorld tunnelOpened []) (mkWorld a1 [1])).
  { apply (StepEstablish (mkWorld tunnelOpened []) 1 0%nat 1%nat ConnectionPrimary 40000
             (Some "auth failed"%string) a1); [vm_compute; tauto|simpl; tauto|exact E]. }
  assert (H0 : nth_error (heap (app (mkWorld a1 [1]))) 0 = Some (tunnelSettings false))
    by (vm_compute; reflexivity).
  destruct (secondary_opens_steps (Z.to_nat (2 ^ 32 - 1)) (mkWorld a1 [1]) _ H0)
    as (w2 & Hs & _ & L & Hi).
  exists a1, w2. split; [exact E|]. split; [exact Hst|]. split; [exact Hs|].
  rewrite Nat2Z.inj_succ, Z2Nat.id in L by lia.
  replace (lastServerHandle (app (mkWorld a1 [1]))) with 1 in L by (vm_compute; reflexivity).
  replace (wrap32 (1 + Z.succ (2 ^ 32 - 1))) with 1 in L by (vm_compute; reflexivity).
  rewrite <- L. exact Hi.
Qed.

(** C3. When [openServer] goes through (returns [true]), it takes the
    tunnel path exactly when the type is Primary or Test, the settings are
    not a replica set and SSH is enabled: then it sends one establish
    request carrying the new handle and registers no server (a null
    entry); in every other combination it registers the new server at once
    and sends no establish request. *)
Theorem openServer_tunnel_decision prompt s p t cs s' :
  nth_error (heap s) p = Some cs ->
  openServer prompt p t s = Some (true, s') ->
  if isPrimaryOrTest t && negb (cs_isReplicaSet cs) && ssh_enabled (cs_ssh cs) then
    servers s' = servers s ++ [None] /\
    liveServers (servers s') = liveServers (servers s) /\
    establishRequests (trace s') = establishRequests (trace s) ++ [lastServerHandle s']
  else
    servers s' = servers s ++ [Some (mkMongoServer (lastServerHandle s') (List.length (heap s)) t)] /\
    establishRequests (trace s') = establishRequests (trace s).
Proof.
  intros H E. destruct (openServer_result _ _ _ _ _ _ _ H E) as (cs' & _ & ->).
  unfold openServerResult. fold (tunnelRequired t cs).
  destruct (tunnelRequired t cs); simpl;
    rewrite establishRequests_app; destruct (isPrimary t); simpl.
  - rewrite liveServers_app, app_nil_r. repeat split; reflexivity.
  - rewrite liveServers_app, app_nil_r. repeat split; reflexivity.
  - rewrite app_nil_r. split; reflexivity.
  - rewrite app_nil_r. split; reflexivity.
Qed.

Lemma openServer_tunnel_decision_witness :
  nth_error (heap (initApp [tunnelSettings false])) 0 = Some (tunnelSettings false) /\
  openServer noPrompt 0%nat ConnectionPrimary (initApp [tunnelSettings false]) = Some (true, tunnelOpened) /\
  servers tunnelOpened = [None] /\ liveServers (servers tunnelOpened) = [] /\
  establishRequests (trace tunnelOpened) = [lastServerHandle tunnelOpened].
Proof.
  assert (H : nth_error (heap (initApp [tunnelSettings false])) 0 = Some (tunnelSettings false))
    by reflexivity.
  assert (E : openServer noPrompt 0%nat ConnectionPrimary (initApp [tunnelSettings false]) =
              Some (true, tunnelOpened)) by (vm_compute; reflexivity).
  split; [exact H|]. split; [exact E|].
  exact (openServer_tunnel_decision noPrompt (initApp [tunnelSettings false]) 0%nat ConnectionPrimary
           (tunnelSettings false) tunnelOpened H E).
Defined.

(** C5. When a required prompt is declined (the SSH prompt, or the SSL
    passphrase prompt, each for Primary/Test with its ask mode on),
    [openServer] returns [false] without issuing a handle, emitting any
    action or event, or touching the server, shell and worker
    collections. *)
Theorem openServer_declined prompt s p t cs :
  nth_error (heap s) p = Some cs ->
  (sshPromptRequired cs t = true /\ prompt SshPrompt = None \/
   sslPromptRequired cs t = true /\ prompt SslPrompt = None) ->
  exists s', openServer prompt p t s = Some (false, s') /\
    lastServerHandle s' = lastServerHandle s /\ servers s' = servers s /\
    shells s' = shells s /\ workers s' = workers s /\ trace s' = trace s.
Proof.
  intros H Hd. rewrite (openServer_eq _ _ _ _ _ H). unfold promptPhase.
  destruct Hd as [[E1 E2]|[E1 E2]].
  - rewrite E1, E2. eexists. split; [reflexivity|]. repeat split.
  - destruct (sshPromptRequired cs t); [destruct (prompt SshPrompt) as [u|]|].
    + change (sslPromptRequired (setAskedPassword u cs) t) with (sslPromptRequired cs t).
      rewrite E1, E2. eexists. split; [reflexivity|]. repeat split.
    + eexists. split; [reflexivity|]. repeat split.
    + rewrite E1, E2. eexists. split; [reflexivity|]. repeat split.
Qed.

Lemma openServer_declined_witness :
  exists s', openServer noPrompt 0%nat ConnectionPrimary (initApp [tunnelSettings true]) = Some (false, s') /\
    lastServerHandle s' = 0 /\ servers s' = [] /\ shells s' = [] /\ workers s' = [] /\ trace s' = [].
Proof.
  apply (openServer_declined noPrompt (initApp [tunnelSettings true]) 0%nat ConnectionPrimary
           (tunnelSettings true)); [reflexivity|].
  left. split; reflexivity.
Defined.

(** C1 (code bug). When a tunnel is required and no prompt is declined,
    [openServer] returns [true] and pushes the null pointer that
    [openServerInternal] returns on the tunnel path into the server
    collection: its size grows by one at once, before any response. Its
    non-null servers stay as they were, and an establish request carrying
    the new handle is sent. *)
Theorem openServer_tunnel_pushes_null prompt s p t cs :
  nth_error (heap s) p = Some cs ->
  tunnelRequired t cs = true ->
  snd (promptPhase prompt t cs) = true ->
  exists s', openServer prompt p t s = Some (true, s') /\
    servers s' = servers s ++ [None] /\
    List.length (servers s') = S (List.length (servers s)) /\
    liveServers (servers s') = liveServers (servers s) /\
    establishRequests (trace s') = establishRequests (trace s) ++ [lastServerHandle s'].
Proof.
  intros H Ht Hok. rewrite (openServer_eq _ _ _ _ _ H).
  destruct (promptPhase prompt t cs) as [cs' ok] eqn:Ep. simpl in Hok. subst ok.
  destruct (promptPhase_same _ _ _ _ _ Ep) as (Et & _).
  unfold openServerCommit, bind at 1.
  rewrite openServerInternal_eq with (cs := cs')
    by (simpl; eapply nth_error_list_set_eq; exact H).
  rewrite Et, Ht. unfold bind, push_server, ret. simpl.
  eexists. split; [reflexivity|]. simpl. split; [reflexivity|].
  split; [rewrite length_app; simpl; lia|].
  split; [rewrite liveServers_app, app_nil_r; reflexivity|].
  rewrite !establishRequests_app. destruct (isPrimary t); simpl; rewrite ?app_nil_r; reflexivity.
Qed.

Lemma openServer_tunnel_pushes_null_witness :
  exists s', openServer noPrompt 0%nat ConnectionPrimary (initApp [tunnelSettings false]) = Some (true, s') /\
    servers s' = [None] /\ List.length (servers s') = 1%nat /\ liveServers (servers s') = [] /\
    establishRequests (trace s') = [lastServerHandle s'].
Proof.
  apply (openServer_tunnel_pushes_null noPrompt (initApp [tunnelSettings false]) 0%nat ConnectionPrimary
           (tunnelSettings false)); reflexivity.
Defined.

(** C9. After an establish success for handle [h], the server with handle
    [h] is registered; a listen response then leaves the servers, shells,
    handle counter, settings and workers as they are and only appends one
    action: a [ConnectionFailedEvent] with reason [SshChannel] on error, or
    the "SSH tunnel closed." log on success (logged at [Error] severity);
    no connection logic runs. *)
Theorem listen_keeps_registration s ev cs s1 :
  est_error ev = None ->
  nth_error (heap s) (est_settings ev) = Some cs ->
  handleEstablish ev s = Some (tt, s1) ->
  In (Some (mkMongoServer (est_serverHandle ev) (List.length (heap s)) (est_connectionType ev)))
     (servers s1) /\
  forall lev, exists s2, handleListen lev s1 = Some (tt, s2) /\
    servers s2 = servers s1 /\ shells s2 = shells s1 /\
    lastServerHandle s2 = lastServerHandle s1 /\ heap s2 = heap s1 /\ workers s2 = workers s1 /\
    trace s2 = trace s1 ++
      [match lst_error lev with
       | Some msg => APublish (ConnectionFailedEvent (lst_serverHandle lev)
                                (lst_connectionType lev) msg SshChannel)
       | None => ALog MsgTunnelClosed Error
       end].
Proof.
  intros E H Hs. rewrite (handleEstablish_success _ _ _ E H) in Hs.
  injection Hs as <-. split.
  - simpl. apply in_or_app. right. left. reflexivity.
  - intros lev. rewrite handleListen_eq. eexists. split; [reflexivity|]. repeat split.
Qed.

Lemma listen_keeps_registration_witness :
  exists s1,
  handleEstablish (tunnelResponse None) tunnelOpened = Some (tt, s1) /\
  In (Some (mkMongoServer 1 2%nat ConnectionPrimary)) (servers s1) /\
  forall lev, exists s2, handleListen lev s1 = Some (tt, s2) /\
    servers s2 = servers s1 /\ shells s2 = shells s1 /\
    lastServerHandle s2 = lastServerHandle s1 /\ heap s2 = heap s1 /\ workers s2 = workers s1 /\
    trace s2 = trace s1 ++
      [match lst_error lev with
       | Some msg => APublish (ConnectionFailedEvent (lst_serverHandle lev)
                                (lst_connectionType lev) msg SshChannel)
       | None => ALog MsgTunnelClosed Error
       end].
Proof.
  assert (E : handleEstablish (tunnelResponse None) tunnelOpened =
              Some (tt, stateOf (handleEstablish (tunnelResponse None) tunnelOpened)))
    by (vm_compute; reflexivity).
  eexists. split; [exact E|].
  apply (listen_keeps_registration tunnelOpened (tunnelResponse None) (tunnelSettings false) _ eq_refl);
    [reflexivity|exact E].
Defined.

(** C10 (code bug). The new Secondary server of [openShell] is never null,
    and with a null originating server [openShell] registers no shell and
    no server and publishes no event. The null check comes after
    [openServerInternal], though: by then the call has issued a handle
    (the counter is incremented), cloned the settings object, started the
    new server's worker thread, logged the start of the connection and
    tried to connect. *)
Theorem openShell_null_origin s p si cs :
  nth_error (heap s) p = Some cs ->
  (exists srv s1, openServerInternal p ConnectionSecondary s = Some (Some srv, s1)) /\
  let h := wrap32 (lastServerHandle s + 1) in
  exists s', openShell None p si s = Some (tt, s') /\
    servers s' = servers s /\ shells s' = shells s /\
    published (trace s') = published (trace s) /\
    lastServerHandle s' = h /\
    heap s' = heap s ++ [cs] /\
    trace s' = trace s ++ [AIssueHandle h; ARunWorkerThread h;
                           ALog (MsgConnecting (serverLabel cs)) Info; ATryConnect h].
Proof.
  intros H. split.
  - rewrite (openServerInternal_eq _ _ _ _ H), tunnelRequired_secondary. simpl. eauto.
  - intros h. rewrite (openShell_eq None s p cs si H). eexists. split; [reflexivity|]. simpl.
    rewrite published_app. simpl. rewrite app_nil_r. repeat split.
Qed.

Lemma openShell_null_origin_witness :
  (exists srv s1, openServerInternal 0%nat ConnectionSecondary (initApp [plainSettings]) = Some (Some srv, s1)) /\
  exists s', openShell None 0%nat sampleScript (initApp [plainSettings]) = Some (tt, s') /\
    servers s' = [] /\ shells s' = [] /\ published (trace s') = [] /\
    lastServerHandle s' = 1 /\ heap s' = [plainSettings; plainSettings] /\
    trace s' = [AIssueHandle 1; ARunWorkerThread 1;
                ALog (MsgConnecting (serverLabel plainSettings)) Info; ATryConnect 1].
Proof.
  apply (openShell_null_origin (initApp [plainSettings]) 0%nat sampleScript plainSettings).
  reflexivity.
Defined.

(** C7 (code bug). [buildCollectionQuery] substitutes with two chained
    [QString::arg] calls, so a [%1] (or [%2]) in the escaped collection name
    is substituted again by the second call: for the name [%1] and the
    operation [find({})] the script is [db.getCollection('find({})').%2],
    not the template's [db.getCollection('%1').find({})]. For [a\b] the
    backslash is doubled as described. *)
Theorem buildCollectionQuery_resubstitutes :
  buildCollectionQuery "%1" "find({})" = "db.getCollection('find({})').%2"%string /\
  collectionQueryTemplate "%1" "find({})" = "db.getCollection('%1').find({})"%string /\
  buildCollectionQuery "a\b" "find({})" = "db.getCollection('a\\b').find({})"%string /\
  collectionQueryTemplate "a\b" "find({})" = "db.getCollection('a\\b').find({})"%string.
Proof. vm_compute. repeat split. Qed.

(* ------------------------------------------------------------------ *)
(** ** Handles over a sequence of calls *)

Lemma iterWrap_S z n : iterWrap z (S n) = wrap32 (iterWrap z n + 1).
Proof. revert z; induction n as [|n IH]; intros z; [reflexivity|]. exact (IH (wrap32 (z + 1))). Qed.

Lemma wrapSeq_S z n : wrapSeq z (S n) = wrapSeq z n ++ [iterWrap z (S n)].
Proof.
  revert z; induction n as [|n IH]; intros z; [reflexivity|].
  change (wrapSeq z (S (S n))) with (wrap32 (z + 1) :: wrapSeq (wrap32 (z + 1)) (S n)).
  rewrite IH. reflexivity.
Qed.

Lemma iterWrap_small z n :
  0 <= z -> z + Z.of_nat n <= INT_MAX -> iterWrap z n = z + Z.of_nat n.
Proof.
  revert z; induction n as [|n IH]; intros z H1 H2; simpl; [lia|].
  rewrite wrap32_small by (unfold INT_MAX in *; lia).
  rewrite IH by lia. lia.
Qed.

Lemma Sorted_app_r {A} (R : A -> A -> Prop) l1 l2 : Sorted R (l1 ++ l2) -> Sorted R l2.
Proof.
  induction l1 as [|a l1 IH]; simpl; [auto|]. intros H. apply Sorted_inv in H. tauto.
Qed.

(** One [openServer] call: a call that goes through issues exactly one
    handle, the first action of the call; a declined call issues none and
    emits nothing. *)
Lemma openServer_issue prompt p t s b s' :
  0 <= lastServerHandle s < INT_MAX ->
  openServer prompt p t s = Some (b, s') ->
  if b then lastServerHandle s' = lastServerHandle s + 1 /\
    exists rest, trace s' = trace s ++ AIssueHandle (lastServerHandle s') :: rest /\
                 issuedHandles rest = []
  else lastServerHandle s' = lastServerHandle s /\ trace s' = trace s.
Proof.
  intros Hb E. destruct (openServer_some _ _ _ _ _ E) as [cs H].
  destruct (openServer_result _ _ _ _ _ _ _ H E) as (cs' & _ & ->).
  destruct b; [|split; reflexivity].
  unfold openServerResult. rewrite wrap32_small by (unfold INT_MAX in *; lia).
  destruct (tunnelRequired t cs); simpl; (split; [reflexivity|]);
    eexists; (split; [reflexivity|]); destruct (isPrimary t); reflexivity.
Qed.

Lemma openServer_plain_secondary s :
  nth_error (heap s) 0 = Some plainSettings ->
  openServer noPrompt 0%nat ConnectionSecondary s =
  Some (true, openServerResult s 0%nat ConnectionSecondary plainSettings plainSettings).
Proof.
  intros H. rewrite (openServer_eq _ _ _ _ _ H).
  change (promptPhase noPrompt ConnectionSecondary plainSettings) with (plainSettings, true).
  cbv zeta iota. unfold openServerCommit, bind at 1.
  rewrite openServerInternal_eq with (cs := plainSettings)
    by (eapply nth_error_list_set_eq; exact H).
  unfold openServerResult, withHeap, bind, push_server, ret. simpl.
  rewrite list_set_length. reflexivity.
Qed.

Lemma openServerAll_secondary n s :
  nth_error (heap s) 0 = Some plainSettings ->
  exists s', openServerAll (repeat secondaryCall n) s = Some (repeat true n, s') /\
    lastServerHandle s' = iterWrap (lastServerHandle s) n /\
    issuedHandles (trace s') = issuedHandles (trace s) ++ wrapSeq (lastServerHandle s) n.
Proof.
  revert s; induction n as [|n IH]; intros s H.
  - exists s. simpl. rewrite app_nil_r. repeat split.
  - simpl. unfold bind at 1. rewrite (openServer_plain_secondary s H).
    set (s1 := openServerResult s 0%nat ConnectionSecondary plainSettings plainSettings).
    assert (H1 : nth_error (heap s1) 0 = Some plainSettings).
    { unfold s1, openServerResult. simpl. destruct (heap s) as [|c l]; [discriminate|].
      simpl in *. congruence. }
    destruct (IH s1 H1) as (s' & E & L & I). unfold bind. rewrite E.
    exists s'. split; [reflexivity|]. split.
    + rewrite L. reflexivity.
    + rewrite I. unfold s1, openServerResult. simpl.
      rewrite issuedHandles_app, <- app_assoc. reflexivity.
Qed.

(** C4 (amended). While the [int] counter cannot overflow (it starts at
    [z >= 0] and [z + N <= INT_MAX] for [N] calls), the handles issued by a
    sequence of [openServer] calls, whatever their outcome, are strictly
    increasing, pairwise distinct and above every earlier handle, one per
    call that goes through; and within each call the handle is issued
    before any other action of the call (events included). *)
Theorem openServerAll_handles_increase calls s bs s' :
  0 <= lastServerHandle s ->
  lastServerHandle s + Z.of_nat (List.length calls) <= INT_MAX ->
  openServerAll calls s = Some (bs, s') ->
  (exists l, issuedHandles (trace s') = issuedHandles (trace s) ++ l /\
     Sorted Z.lt l /\ NoDup l /\
     Forall (fun h => lastServerHandle s < h <= lastServerHandle s') l /\
     lastServerHandle s' = lastServerHandle s + Z.of_nat (List.length l) /\
     List.length l = List.length (filter (fun b => b) bs)) /\
  (forall prompt p t s0 b s1, In (prompt, p, t) calls ->
     0 <= lastServerHandle s0 < INT_MAX ->
     openServer prompt p t s0 = Some (b, s1) ->
     if b then lastServerHandle s1 = lastServerHandle s0 + 1 /\
       exists rest, trace s1 = trace s0 ++ AIssueHandle (lastServerHandle s1) :: rest /\
                    issuedHandles rest = []
     else lastServerHandle s1 = lastServerHandle s0 /\ trace s1 = trace s0).
Proof.
  intros H0 Hn E. split; [|intros ? ? ? ? ? ? _; apply openServer_issue].
  revert s bs H0 Hn E; induction calls as [|[[prompt p] t] rest IH]; intros s bs H0 Hn E.
  - injection E as <- <-. exists []. rewrite app_nil_r.
    repeat split; try constructor. simpl. lia.
  - cbn [List.length] in Hn. rewrite Nat2Z.inj_succ in Hn. simpl in E. unfold bind at 1 in E.
    destruct (openServer prompt p t s) as [[b s1]|] eqn:E1; [|discriminate].
    unfold bind in E. destruct (openServerAll rest s1) as [[bs1 s2]|] eqn:E2; [|discriminate].
    injection E as <- <-.
    assert (Hb : 0 <= lastServerHandle s < INT_MAX) by lia.
    pose proof (openServer_issue _ _ _ _ _ _ Hb E1) as Hc.
    destruct b.
    + destruct Hc as (L1 & r & T1 & Ir).
      destruct (IH s1 bs1 ltac:(lia) ltac:(lia) E2) as (l & I & So & Nd & Fa & L2 & Ln).
      exists (lastServerHandle s1 :: l). rewrite I, T1, issuedHandles_app. simpl. rewrite Ir.
      rewrite Forall_forall in Fa. split; [rewrite <- app_assoc; reflexivity|].
      split; [|split; [|split; [|split]]].
      * constructor; [exact So|]. destruct l as [|x l]; constructor.
        apply proj1 with (B := x <= lastServerHandle s2), Fa. left; reflexivity.
      * constructor; [|exact Nd]. intros X. apply Fa in X. lia.
      * constructor; [lia|]. apply Forall_forall. intros x X. apply Fa in X. lia.
      * simpl List.length. lia.
      * simpl. rewrite Ln. reflexivity.
    + destruct Hc as (L1 & T1).
      destruct (IH s1 bs1 ltac:(lia) ltac:(lia) E2) as (l & I & So & Nd & Fa & L2 & Ln).
      exists l. rewrite I, T1. rewrite L1 in Fa, L2. repeat split; auto.
Qed.

Lemma openServerAll_handles_increase_witness :
  exists bs s',
  openServerAll sampleCalls (initApp sampleHeap) = Some (bs, s') /\
  (exists l, issuedHandles (trace s') = [] ++ l /\
     Sorted Z.lt l /\ NoDup l /\
     Forall (fun h => 0 < h <= lastServerHandle s') l /\
     lastServerHandle s' = 0 + Z.of_nat (List.length l) /\
     List.length l = List.length (filter (fun b => b) bs)) /\
  (forall prompt p t s0 b s1, In (prompt, p, t) sampleCalls ->
     0 <= lastServerHandle s0 < INT_MAX ->
     openServer prompt p t s0 = Some (b, s1) ->
     if b then lastServerHandle s1 = lastServerHandle s0 + 1 /\
       exists rest, trace s1 = trace s0 ++ AIssueHandle (lastServerHandle s1) :: rest /\
                    issuedHandles rest = []
     else lastServerHandle s1 = lastServerHandle s0 /\ trace s1 = trace s0).
Proof.
  assert (E : openServerAll sampleCalls (initApp sampleHeap) =
              Some ([true; false; true], stateOf (openServerAll sampleCalls (initApp sampleHeap))))
    by (vm_compute; reflexivity).
  do 2 eexists. split; [exact E|].
  apply (openServerAll_handles_increase sampleCalls (initApp sampleHeap) _ _); [simpl; lia| |exact E].
  unfold INT_MAX. simpl. lia.
Defined.

(** C4 counterexample. [_lastServerHandle] is an [int]: after [2^31]
    Secondary opens from a fresh [App], the last two handles issued are
    [INT_MAX] and then [-2^31] (the increment wraps), so the sequence of
    issued handles is not increasing. *)
Lemma openServer_handles_wrap :
  exists s', openServerAll (repeat secondaryCall (Z.to_nat (2 ^ 31))) (initApp [plainSettings]) =
             Some (repeat true (Z.to_nat (2 ^ 31)), s') /\
    lastServerHandle s' = - 2 ^ 31 /\
    (exists pre, issuedHandles (trace s') = pre ++ [INT_MAX; - 2 ^ 31]) /\
    ~ Sorted Z.lt (issuedHandles (trace s')).
Proof.
  destruct (openServerAll_secondary (Z.to_nat (2 ^ 31)) (initApp [plainSettings]) eq_refl)
    as (s' & E & L & I).
  assert (HM : exists M, Z.to_nat (2 ^ 31) = S (S M) /\ Z.of_nat M = 2 ^ 31 - 2).
  { exists (Z.to_nat (2 ^ 31 - 2)). split.
    - apply Nat2Z.inj. rewrite !Nat2Z.inj_succ, !Z2Nat.id by lia. lia.
    - rewrite Z2Nat.id by lia. reflexivity. }
  destruct HM as (M & EM & HM).
  assert (Hi : iterWrap 0 (S M) = INT_MAX).
  { rewrite iterWrap_small; unfold INT_MAX; rewrite ?Nat2Z.inj_succ; lia. }
  assert (Hj : iterWrap 0 (S (S M)) = - 2 ^ 31).
  { rewrite iterWrap_S, Hi. reflexivity. }
  exists s'. split; [exact E|].
  simpl lastServerHandle in L, I. rewrite EM in L, I.
  split; [rewrite L; exact Hj|].
  rewrite wrapSeq_S, wrapSeq_S, Hi, Hj, <- app_assoc in I. simpl in I.
  split; [eexists; exact I|].
  rewrite I. intros So. apply Sorted_app_r in So. apply Sorted_inv in So.
  destruct So as [_ Hr]. inversion Hr as [|? ? Hlt]. unfold INT_MAX in Hlt. lia.
Qed.

(** C6 (amended). [openServer] writes the caller's settings object only
    through the credential prompts (the entered SSH password and SSL
    passphrase: the object is unchanged up to these secrets) and leaves
    every other settings object as it is; the servers it registers and
    the establish requests it sends use settings objects created by the
    call (clones). The [openShell] primitive and the establish handler
    only append clones, so the tunnel endpoint rewrite touches no existing
    settings object. The [openShell] overloads for a collection, a
    database, or a server with a non-empty database name first set the
    default database of the server's own settings object
    ([connectionRecord]); apart from that they only append clones. *)
Theorem settings_cloned_not_mutated :
  (forall prompt s p t cs b s',
     nth_error (heap s) p = Some cs -> openServer prompt p t s = Some (b, s') ->
     exists cs' ext, heap s' = list_set (heap s) p cs' ++ ext /\
       stripSecrets cs' = stripSecrets cs /\
       (forall srv, In (Some srv) (servers s') ->
          In (Some srv) (servers s) \/ (List.length (heap s) <= srv_settings srv)%nat) /\
       (forall wk h q t', In (ASend wk (EstablishSshConnectionRequest h wk q t')) (trace s') ->
          In (ASend wk (EstablishSshConnectionRequest h wk q t')) (trace s) \/
          (List.length (heap s) <= q)%nat)) /\
  (forall origin p si s s', openShell origin p si s = Some (tt, s') ->
     exists ext, heap s' = heap s ++ ext) /\
  (forall ev s s', handleEstablish ev s = Some (tt, s') ->
     exists ext, heap s' = heap s ++ ext /\
       (forall srv, In (Some srv) (servers s') ->
          In (Some srv) (servers s) \/ (List.length (heap s) <= srv_settings srv)%nat)) /\
  (forall collection fp s s' cs,
     let p := connectionRecord (db_server (coll_database collection)) in
     nth_error (heap s) p = Some cs -> openShellCollection collection fp s = Some (tt, s') ->
     exists ext, heap s' =
       list_set (heap s) p (setDefaultDatabase (db_name (coll_database collection)) cs) ++ ext) /\
  (forall server script dbName execute shellName cursor fp s s' cs,
     let p := connectionRecord server in
     nth_error (heap s) p = Some cs ->
     openShellScript server script dbName execute shellName cursor fp s = Some (tt, s') ->
     exists ext, heap s' =
       (if String.eqb dbName EmptyString then heap s
        else list_set (heap s) p (setDefaultDatabase dbName cs)) ++ ext) /\
  (forall database script execute shellName cursor fp s s' cs,
     let p := connectionRecord (db_server database) in
     nth_error (heap s) p = Some cs ->
     openShellDatabase database script execute shellName cursor fp s = Some (tt, s') ->
     exists ext, heap s' = list_set (heap s) p (setDefaultDatabase (db_name database) cs) ++ ext).
Proof.
  split; [|split; [|split; [|split; [|split]]]].
  - intros prompt s p t cs b s' H E.
    destruct (openServer_result _ _ _ _ _ _ _ H E) as (cs' & Ep & ->).
    exists cs'. apply promptPhase_strip in Ep. destruct b.
    + exists [cs']. unfold openServerResult.
      destruct (tunnelRequired t cs); simpl; (split; [reflexivity|]); (split; [exact Ep|]);
        split; intros * Hin; apply in_app_or in Hin;
        (destruct Hin as [Hin|Hin]; [left; exact Hin|right]);
        destruct (isPrimary t); simpl in Hin;
        repeat (destruct Hin as [Hin|Hin]; [try discriminate Hin; injection Hin; intros; subst; simpl; lia|]);
        contradiction.
    + exists []. rewrite app_nil_r. simpl. split; [reflexivity|]. split; [exact Ep|].
      split; intros; left; assumption.
  - intros origin p si s s' E. exact (openShell_heap_ext _ _ _ _ _ E).
  - intros ev s s' E. destruct (est_error ev) as [msg|] eqn:Er.
    + rewrite (handleEstablish_error s ev msg Er) in E. injection E as <-.
      exists []. rewrite app_nil_r. split; [reflexivity|]. intros; left; assumption.
    + destruct (nth_error (heap s) (est_settings ev)) as [cs|] eqn:H.
      * rewrite (handleEstablish_success s ev cs Er H) in E. injection E as <-.
        eexists. split; [reflexivity|]. simpl. intros srv Hin. apply in_app_or in Hin.
        destruct Hin as [Hin|[Hin|[]]]; [left; exact Hin|right].
        injection Hin as <-. simpl. lia.
      * unfold handleEstablish, continueOpenServer in E. rewrite Er in E.
        unfold_M. simpl in E. rewrite H in E. discriminate.
  - intros collection fp s s' cs p H E. unfold openShellCollection in E. cbv zeta in E.
    rewrite (set_settings_then _ _ _ _ s cs H) in E.
    exact (openShell_heap_ext _ _ _ _ _ E).
  - intros server script dbName execute shellName cursor fp s s' cs p H E.
    unfold openShellScript in E. cbv zeta in E.
    destruct (String.eqb dbName EmptyString); simpl negb in E; cbv iota in E.
    + rewrite ret_then in E. exact (openShell_heap_ext _ _ _ _ _ E).
    + rewrite (set_settings_then _ _ _ _ s cs H) in E.
      exact (openShell_heap_ext _ _ _ _ _ E).
  - intros database script execute shellName cursor fp s s' cs p H E.
    unfold openShellDatabase in E. cbv zeta in E.
    rewrite (set_settings_then _ _ _ _ s cs H) in E.
    exact (openShell_heap_ext _ _ _ _ _ E).
Qed.

Lemma settings_cloned_not_mutated_witness :
  exists cs' ext, heap tunnelOpened = list_set [tunnelSettings false] 0 cs' ++ ext /\
    stripSecrets cs' = stripSecrets (tunnelSettings false).
Proof.
  destruct (proj1 settings_cloned_not_mutated noPrompt (initApp [tunnelSettings false]) 0%nat
              ConnectionPrimary (tunnelSettings false) true tunnelOpened eq_refl
              ltac:(vm_compute; reflexivity)) as (cs' & ext & Hh & Hs & _).
  exists cs', ext. split; [exact Hh|exact Hs].
Defined.

(** C6 counterexample. [openServer] stores the SSH password entered at the
    prompt in the caller's settings object ([setAskedPassword] on
    [connection->sshSettings()] before the settings are cloned); and
    [openShell] on a database of the server registered in [plainOpened]
    sets the default database of that server's own settings object. *)
Lemma settings_written_in_place :
  (exists s', openServer (answerPrompt "secret") 0%nat ConnectionPrimary (initApp [tunnelSettings true]) =
              Some (true, s') /\
     nth_error (heap s') 0 = Some (setAskedPassword "secret" (tunnelSettings true)) /\
     setAskedPassword "secret" (tunnelSettings true) <> tunnelSettings true) /\
  (let server := mkMongoServer 1 1%nat ConnectionSecondary in
   servers plainOpened = [Some server] /\
   nth_error (heap plainOpened) (connectionRecord server) = Some plainSettings /\
   exists s', openShellDatabase (mkMongoDatabase server "test") "db.stats()" false "test" (1, 1) ""
                plainOpened = Some (tt, s') /\
     nth_error (heap s') (connectionRecord server) = Some (setDefaultDatabase "test" plainSettings) /\
     setDefaultDatabase "test" plainSettings <> plainSettings).
Proof.
  split.
  - eexists. split; [vm_compute; reflexivity|]. split; [vm_compute; reflexivity|].
    vm_compute. intros Hc. discriminate Hc.
  - split; [vm_compute; reflexivity|]. split; [vm_compute; reflexivity|].
    eexists. split; [vm_compute; reflexivity|]. split; [vm_compute; reflexivity|].
    vm_compute. intros Hc. discriminate Hc.
Qed.

(* ------------------------------------------------------------------ *)
(** ** Further properties of the code *)

Module QtStringFacts.
Import QtString.

Lemma findArgEscapes_app_noPercent (x y : string) d :
  ~ In "%"%char (list_ascii_of_string x) ->
  findArgEscapes (x ++ y)%string d = findArgEscapes y d.
Proof.
  induction x as [|c x IH]; intros H; [reflexivity|].
  simpl in H. cbn [append findArgEscapes].
  destruct (Ascii.eqb_spec c "%"%char) as [->|Hc]; [exfalso; tauto|]. apply IH. tauto.
Qed.

Lemma replaceArgEscapes_app_noPercent m a (x y : string) :
  ~ In "%"%char (list_ascii_of_string x) ->
  replaceArgEscapes m a (x ++ y)%string = (x ++ replaceArgEscapes m a y)%string.
Proof.
  induction x as [|c x IH]; intros H; [reflexivity|].
  simpl in H. cbn [append replaceArgEscapes].
  destruct (Ascii.eqb_spec c "%"%char) as [->|Hc]; [exfalso; tauto|]. rewrite IH by tauto.
  reflexivity.
Qed.

Lemma escapeBackslashes_noPercent (x : string) :
  ~ In "%"%char (list_ascii_of_string x) ->
  ~ In "%"%char (list_ascii_of_string (escapeBackslashes x)).
Proof.
  induction x as [|c x IH]; intros H; [simpl; tauto|].
  simpl in H. cbn [escapeBackslashes].
  destruct (Ascii.eqb_spec c "\"%char) as [->|Hc]; simpl.
  - intros [E|[E|E]]; [discriminate|discriminate|]. apply IH; tauto.
  - intros [E|E]; [apply H; left; exact E|]. apply IH; tauto.
Qed.

End QtStringFacts.

(** X1. For a collection name without a ['%'] character, and any
    operation text, [buildCollectionQuery] is the template with the
    escaped name: [db.getCollection('<name, backslashes doubled>').<op>]. *)
Theorem buildCollectionQuery_template (collectionName postfix : string) :
  ~ In "%"%char (list_ascii_of_string collectionName) ->
  buildCollectionQuery collectionName postfix = collectionQueryTemplate collectionName postfix.
Proof.
  intros H. pose proof (QtStringFacts.escapeBackslashes_noPercent _ H) as H'.
  unfold buildCollectionQuery, collectionQueryTemplate.
  set (n := QtString.escapeBackslashes collectionName) in *. cbv zeta.
  assert (E1 : QtString.arg "db.getCollection('%1').%2" n =
               ("db.getCollection('" ++ n ++ "').%2")%string) by reflexivity.
  rewrite E1. unfold QtString.arg.
  change (QtString.findArgEscapes ("db.getCollection('" ++ n ++ "').%2") None)
    with (QtString.findArgEscapes (n ++ "').%2") None).
  rewrite QtStringFacts.findArgEscapes_app_noPercent by exact H'.
  change (QtString.findArgEscapes "').%2" None) with (Some (2, 1%nat)). cbv beta iota.
  change (QtString.replaceArgEscapes 2 postfix ("db.getCollection('" ++ n ++ "').%2"))
    with ("db.getCollection('" ++ QtString.replaceArgEscapes 2 postfix (n ++ "').%2"))%string.
  rewrite QtStringFacts.replaceArgEscapes_app_noPercent by exact H'.
  reflexivity.
Qed.

(** Lemmas used by the properties below. *)
Lemma ConnectionType_eqb_spec a b : ConnectionType_eqb a b = true <-> a = b.
Proof. destruct a, b; simpl; split; congruence. Qed.

Lemma MongoServer_eqb_spec a b : MongoServer_eqb a b = true <-> a = b.
Proof.
  destruct a as [h1 p1 t1], b as [h2 p2 t2]. unfold MongoServer_eqb; simpl.
  rewrite !andb_true_iff, Z.eqb_eq, Nat.eqb_eq, ConnectionType_eqb_spec.
  split; [intros [[-> ->] ->]; reflexivity|intros [=]; auto].
Qed.

Lemma ptr_eqb_spec a b : ptr_eqb a b = true <-> a = b.
Proof.
  destruct a as [x|], b as [y|]; simpl; try (split; congruence).
  rewrite MongoServer_eqb_spec. split; congruence.
Qed.

Lemma filter_all {A} (f : A -> bool) l : (forall x, In x l -> f x = true) -> filter f l = l.
Proof.
  induction l as [|a l IH]; intros H; simpl; [reflexivity|].
  rewrite H by (left; reflexivity). rewrite IH by (intros; apply H; right; auto). reflexivity.
Qed.

Lemma filter_not_none l : filter (fun el => negb (ptr_eqb el None)) l = map Some (liveServers l).
Proof. induction l as [|[x|] l IH]; simpl; rewrite ?IH; reflexivity. Qed.

Lemma remove_first_length {A} (f : A -> bool) l :
  existsb f l = true -> S (List.length (remove_first f l)) = List.length l.
Proof.
  induction l as [|a l IH]; simpl; [discriminate|].
  destruct (f a); simpl; auto.
Qed.

Lemma existsb_shells s sh :
  existsb (MongoShell_eqb sh) (shells s) = true <-> ownsShellOf s (shell_server sh).
Proof.
  unfold ownsShellOf. rewrite existsb_exists. unfold MongoShell_eqb.
  split; intros [x [Hi He]]; exists x; split; auto.
  - apply MongoServer_eqb_spec in He. auto.
  - apply MongoServer_eqb_spec. auto.
Qed.

(** X2. [closeServer] on a server erases every entry holding that server
    and keeps all other entries; nothing else of the [App] changes, and
    closing a server the [App] does not hold changes nothing. *)
Theorem closeServer_erases srv s :
  exists s', closeServer (Some srv) s = Some (tt, s') /\
    (forall x, In x (servers s') <-> In x (servers s) /\ x <> Some srv) /\
    lastServerHandle s' = lastServerHandle s /\ shells s' = shells s /\ heap s' = heap s /\
    workers s' = workers s /\ trace s' = trace s /\
    (~ In (Some srv) (servers s) -> s' = s).
Proof.
  eexists. split; [reflexivity|]. simpl. split; [|repeat split].
  - intros x. rewrite filter_In, negb_true_iff.
    split; intros [Hi Hx]; split; auto.
    + intros ->. rewrite (proj2 (ptr_eqb_spec _ _) eq_refl) in Hx. discriminate.
    + destruct (ptr_eqb x (Some srv)) eqn:E; [apply ptr_eqb_spec in E; contradiction|reflexivity].
  - intros Hn. rewrite filter_all; [destruct s; reflexivity|].
    intros x Hx. apply negb_true_iff.
    destruct (ptr_eqb x (Some srv)) eqn:E; [apply ptr_eqb_spec in E; subst; contradiction|reflexivity].
Qed.

(** X3. [closeServer] on a null pointer erases every null entry of the
    collection (the placeholders pushed by tunnel opens) and keeps the
    live servers, in their order. *)
Theorem closeServer_null_purges s :
  exists s', closeServer None s = Some (tt, s') /\
    servers s' = map Some (liveServers (servers s)) /\
    liveServers (servers s') = liveServers (servers s) /\
    shells s' = shells s /\ lastServerHandle s' = lastServerHandle s.
Proof.
  eexists. split; [reflexivity|]. simpl. rewrite filter_not_none. split; [reflexivity|].
  split; [|split; reflexivity].
  induction (liveServers (servers s)) as [|x l IH]; simpl; [reflexivity|]. now rewrite IH.
Qed.

(** X4. [closeShell] does nothing for a shell the [App] does not own; for
    an owned shell it erases exactly one shell and every entry holding
    that shell's server, keeping the other servers. *)
Theorem closeShell_effect sh s :
  exists s', closeShell sh s = Some (tt, s') /\
    (~ ownsShellOf s (shell_server sh) -> s' = s) /\
    (ownsShellOf s (shell_server sh) ->
       S (List.length (shells s')) = List.length (shells s) /\
       (forall x, In x (servers s') <-> In x (servers s) /\ x <> Some (shell_server sh)) /\
       lastServerHandle s' = lastServerHandle s /\ heap s' = heap s /\ trace s' = trace s).
Proof.
  unfold closeShell. destruct (existsb (MongoShell_eqb sh) (shells s)) eqn:E.
  - unfold bind, closeServer, erase_shell. simpl. eexists. split; [reflexivity|].
    split; [intros Hn; exfalso; apply Hn, existsb_shells, E|].
    intros _. simpl. split; [apply remove_first_length, E|]. split; [|repeat split].
    intros x. rewrite filter_In, negb_true_iff.
    split; intros [Hi Hx]; split; auto.
    + intros ->. rewrite (proj2 (ptr_eqb_spec _ _) eq_refl) in Hx. discriminate.
    + destruct (ptr_eqb x (Some (shell_server sh))) eqn:E'; [apply ptr_eqb_spec in E'; contradiction|reflexivity].
  - eexists. split; [reflexivity|]. split; [reflexivity|].
    intros Ho. apply existsb_shells in Ho. congruence.
Qed.

Lemma MongoServer_eqb_refl a : MongoServer_eqb a a = true.
Proof. apply MongoServer_eqb_spec. reflexivity. Qed.

Lemma remove_first_app {A} (f : A -> bool) l1 l2 :
  (forall x, In x l1 -> f x = false) -> remove_first f (l1 ++ l2) = l1 ++ remove_first f l2.
Proof.
  induction l1 as [|a l1 IH]; intros H; simpl; [reflexivity|].
  rewrite H by (left; reflexivity). rewrite IH by (intros; apply H; right; auto). reflexivity.
Qed.

(** The effect of [openShell] with a non-null originating server, read
    off its closed form. *)
Lemma openShell_some_origin_facts o p si s c :
  nth_error (heap s) p = Some c ->
  exists s' sh, openShell (Some o) p si s = Some (tt, s') /\
    shells s' = shells s ++ [sh] /\ servers s' = servers s ++ [Some (shell_server sh)] /\
    shell_scriptInfo sh = si /\ srv_type (shell_server sh) = ConnectionSecondary /\
    srv_handle (shell_server sh) = wrap32 (lastServerHandle s + 1) /\
    nth_error (heap s') p = Some c /\ nth_error (heap s') (srv_settings (shell_server sh)) = Some c /\
    srv_settings (shell_server sh) <> p /\
    published (trace s') = published (trace s) ++ [OpeningShellEvent sh].
Proof.
  intros H. rewrite (openShell_eq (Some o) s p c si H). do 2 eexists. split; [reflexivity|].
  pose proof (nth_error_lt _ _ _ H) as Hlt. simpl.
  split; [reflexivity|]. split; [reflexivity|]. split; [reflexivity|]. split; [reflexivity|].
  split; [reflexivity|]. split; [rewrite nth_error_app1 by exact Hlt; exact H|].
  split; [apply nth_error_snoc_last|]. split; [simpl; lia|].
  rewrite !published_app. simpl. rewrite app_nil_r. reflexivity.
Qed.

Lemma issuedUpTo_snoc z : 0 <= z -> issuedUpTo z ++ [z + 1] = issuedUpTo (z + 1).
Proof.
  intros Hz. unfold issuedUpTo.
  replace (Z.to_nat (z + 1)) with (S (Z.to_nat z)) by lia.
  rewrite seq_S, map_app. f_equal. cbn [map]. f_equal. lia.
Qed.

Lemma openShell_issued s0 origin p si a' :
  0 <= lastServerHandle s0 <= INT_MAX -> lastServerHandle s0 <= lastServerHandle a' ->
  issuedHandles (trace s0) = issuedUpTo (lastServerHandle s0) ->
  openShell origin p si s0 = Some (tt, a') ->
  issuedHandles (trace a') = issuedUpTo (lastServerHandle a').
Proof.
  intros H1 Hm HU E. destruct (openShell_some _ _ _ _ _ E) as [cs Hcs].
  rewrite openShell_eq with (cs := cs) in E by exact Hcs.
  assert (Hl : lastServerHandle a' = wrap32 (lastServerHandle s0 + 1))
    by (destruct origin; injection E as <-; reflexivity).
  rewrite Hl in Hm. destruct (wrap32_succ_no_overflow _ H1 Hm) as [Eh _].
  rewrite Eh in E.
  destruct origin; injection E as <-; simpl; rewrite ?issuedHandles_app; simpl;
    rewrite HU, ?app_nil_r; apply issuedUpTo_snoc; lia.
Qed.

(** One step that does not lower the counter keeps the issued handles
    equal to [1 .. lastServerHandle]. *)
Lemma step_issued w w' :
  step w w' -> lastServerHandle (app w) <= lastServerHandle (app w') -> Inv w ->
  issuedHandles (trace (app w)) = issuedUpTo (lastServerHandle (app w)) ->
  issuedHandles (trace (app w')) = issuedUpTo (lastServerHandle (app w')).
Proof.
  intros Hs Hm HI HU. pose proof HI as (H1 & _ & _ & _).
  assert (Hov : forall a', lastServerHandle (app w) <= lastServerHandle a' ->
            (exists s0 origin p si, openShell origin p si s0 = Some (tt, a') /\
               lastServerHandle s0 = lastServerHandle (app w) /\ servers s0 = servers (app w) /\
               trace s0 = trace (app w)) ->
            issuedHandles (trace a') = issuedUpTo (lastServerHandle a')).
  { intros a' Hm' (s0 & origin & p & si & E & L0 & _ & T0).
    eapply (openShell_issued s0 origin p si a'); [rewrite L0; exact H1|rewrite L0; exact Hm'|
                                                  rewrite L0, T0; exact HU|exact E]. }
  destruct Hs as [w prompt p t b a' E | w origin p si a' E | w c fp a' E
                 | w srv sc db ex sn cur fp a' E | w d sc ex sn cur fp a' E
                 | w x0 a' E | w sh a' E
                 | w h wk p t port err a' Hin Hna E | w ev a' E]; simpl in *.
  - destruct (openServer_some _ _ _ _ _ E) as [cs Hcs].
    destruct (openServer_result _ _ _ _ _ _ _ Hcs E) as (cs' & _ & Ea).
    destruct b.
    + assert (Hl : lastServerHandle a' = wrap32 (lastServerHandle (app w) + 1))
        by (rewrite Ea; unfold openServerResult; destruct (tunnelRequired t cs); reflexivity).
      rewrite Hl in Hm. destruct (wrap32_succ_no_overflow _ H1 Hm) as [_ Hlt].
      pose proof (openServer_issue _ _ _ _ _ _ (conj (proj1 H1) Hlt) E) as Hc.
      destruct Hc as (L & r & T & Ir). rewrite T, issuedHandles_app. simpl. rewrite Ir, HU, L.
      apply issuedUpTo_snoc. lia.
    + rewrite Ea. exact HU.
  - apply Hov; [exact Hm|]. exists (app w), origin, p, si. auto.
  - apply Hov; [exact Hm|]. apply openShell_overloads_reduce. left. eauto.
  - apply Hov; [exact Hm|]. apply openShell_overloads_reduce. right; left. eauto 10.
  - apply Hov; [exact Hm|]. apply openShell_overloads_reduce. right; right. eauto 10.
  - unfold closeServer in E. injection E as <-. exact HU.
  - unfold closeShell in E. destruct (existsb (MongoShell_eqb sh) (shells (app w))).
    + unfold bind, closeServer, erase_shell in E. simpl in E. injection E as <-. exact HU.
    + injection E as <-. exact HU.
  - destruct err as [msg|].
    + rewrite handleEstablish_error with (msg := msg) in E by reflexivity.
      injection E as <-. simpl. rewrite issuedHandles_app, HU. simpl. apply app_nil_r.
    + destruct (nth_error (heap (app w)) p) as [cs|] eqn:Hcs.
      2:{ unfold handleEstablish, continueOpenServer, bind, emit, clone in E. simpl in E.
          rewrite Hcs in E. discriminate. }
      rewrite handleEstablish_success with (cs := cs) in E by auto.
      injection E as <-. simpl. rewrite issuedHandles_app, HU. simpl. apply app_nil_r.
  - rewrite handleListen_eq in E. injection E as <-. simpl. rewrite issuedHandles_app, HU.
    destruct (lst_error ev); simpl; apply app_nil_r.
Qed.

Lemma steps_issued w w' :
  stepsNoOverflow w w' -> Inv w ->
  issuedHandles (trace (app w)) = issuedUpTo (lastServerHandle (app w)) ->
  issuedHandles (trace (app w')) = issuedUpTo (lastServerHandle (app w')).
Proof.
  induction 1 as [w|w1 w2 w3 Hs Hm Hss IH]; intros HI HU; [exact HU|].
  apply IH; [apply (step_Inv _ _ Hs Hm HI)|]. eapply step_issued; eauto.
Qed.

Lemma In_issuedUpTo x n : 1 <= x <= n -> In x (issuedUpTo n).
Proof.
  intros H. unfold issuedUpTo. apply in_map_iff. exists (Z.to_nat x).
  split; [apply Z2Nat.id; lia|]. apply in_seq. lia.
Qed.

(** X5. Opening a shell on a non-null originating server and then closing
    that shell gives back the server and shell collections of before, when
    every handle held so far is at most the counter (so the new handle is
    fresh) and the counter is below [INT_MAX]. *)
Theorem openShell_closeShell_roundtrip o p si s cs s1 :
  nth_error (heap s) p = Some cs ->
  0 <= lastServerHandle s < INT_MAX ->
  (forall x, In x (serverHandles (servers s)) -> x <= lastServerHandle s) ->
  (forall sh, In sh (shells s) -> srv_handle (shell_server sh) <= lastServerHandle s) ->
  openShell (Some o) p si s = Some (tt, s1) ->
  exists sh s2, shells s1 = shells s ++ [sh] /\ closeShell sh s1 = Some (tt, s2) /\
    servers s2 = servers s /\ shells s2 = shells s.
Proof.
  intros H Hb Hsv Hsh E. rewrite (openShell_eq (Some o) s p cs si H) in E.
  rewrite wrap32_small in E by (unfold INT_MAX in *; lia). injection E as <-.
  set (sc := mkMongoServer (lastServerHandle s + 1) (List.length (heap s)) ConnectionSecondary).
  exists (mkMongoShell sc si). eexists. split; [reflexivity|].
  unfold closeShell. simpl. rewrite existsb_app. simpl.
  unfold MongoShell_eqb at 2. simpl. rewrite MongoServer_eqb_refl, orb_true_r.
  unfold bind, closeServer, erase_shell. simpl. split; [reflexivity|].
  split.
  - rewrite filter_app. simpl. rewrite MongoServer_eqb_refl. simpl. rewrite app_nil_r.
    apply filter_all. intros [y|] Hy; [|reflexivity]. apply negb_true_iff.
    destruct (ptr_eqb (Some y) (Some sc)) eqn:Ey; [|reflexivity].
    apply ptr_eqb_spec in Ey. injection Ey as ->. apply In_serverHandles, Hsv in Hy.
    simpl in Hy. lia.
  - rewrite remove_first_app.
    + simpl. unfold MongoShell_eqb. simpl. rewrite MongoServer_eqb_refl. apply app_nil_r.
    + intros x Hx. unfold MongoShell_eqb. simpl.
      destruct (MongoServer_eqb sc (shell_server x)) eqn:Ex; [|reflexivity].
      apply MongoServer_eqb_spec in Ex. apply Hsh in Hx. rewrite <- Ex in Hx. simpl in Hx. lia.
Qed.

Lemma openShell_closeShell_roundtrip_witness :
  exists sh s2,
  shells (stateOf (openShell (Some originServer) 0%nat sampleScript tunnelOpened)) =
    shells tunnelOpened ++ [sh] /\
  closeShell sh (stateOf (openShell (Some originServer) 0%nat sampleScript tunnelOpened)) = Some (tt, s2) /\
  servers s2 = servers tunnelOpened /\ shells s2 = shells tunnelOpened.
Proof.
  apply (openShell_closeShell_roundtrip originServer 0%nat sampleScript tunnelOpened (tunnelSettings false)).
  - reflexivity.
  - change (lastServerHandle tunnelOpened) with 1. unfold INT_MAX. lia.
  - vm_compute. intros x [].
  - vm_compute. intros x [].
  - vm_compute. reflexivity.
Defined.

(** X6. A Secondary open never shows a prompt: whatever the dialogs would
    answer, [openServer] returns [true], registers the new server at once
    on an exact clone of the settings, leaves the caller's settings
    object as it is, publishes no event and sends no establish request. *)
Theorem openServer_secondary_direct prompt p s cs :
  nth_error (heap s) p = Some cs ->
  exists s', openServer prompt p ConnectionSecondary s = Some (true, s') /\
    (forall prompt', openServer prompt' p ConnectionSecondary s = Some (true, s')) /\
    servers s' = servers s ++ [Some (mkMongoServer (lastServerHandle s') (List.length (heap s))
                                      ConnectionSecondary)] /\
    heap s' = heap s ++ [cs] /\
    published (trace s') = published (trace s) /\
    establishRequests (trace s') = establishRequests (trace s).
Proof.
  intros H. exists (openServerResult s p ConnectionSecondary cs cs).
  split; [apply openServer_secondary_eq, H|].
  split; [intros; apply openServer_secondary_eq, H|].
  unfold openServerResult. rewrite tunnelRequired_secondary. simpl.
  rewrite list_set_same by exact H. split; [reflexivity|]. split; [reflexivity|].
  rewrite published_app, establishRequests_app. simpl. rewrite !app_nil_r. split; reflexivity.
Qed.

Lemma openServer_secondary_direct_witness :
  exists s', openServer noPrompt 0%nat ConnectionSecondary (initApp [tunnelSettings true]) = Some (true, s') /\
    (forall prompt', openServer prompt' 0%nat ConnectionSecondary (initApp [tunnelSettings true]) = Some (true, s')) /\
    servers s' = [Some (mkMongoServer (lastServerHandle s') 1%nat ConnectionSecondary)] /\
    heap s' = [tunnelSettings true; tunnelSettings true] /\
    published (trace s') = [] /\ establishRequests (trace s') = [].
Proof.
  apply (openServer_secondary_direct noPrompt 0%nat (initApp [tunnelSettings true]) (tunnelSettings true)).
  reflexivity.
Defined.

(** X7. On an establish success, the server registered for the handle
    connects through the local tunnel endpoint [127.0.0.1:localport] when
    the type is Primary or Test, the settings are not a replica set and
    SSH is enabled, and with an exact copy of the settings otherwise; the
    settings object of the event is left as it is, no handle is issued,
    and the last action is the listen request to the event's worker. *)
Theorem establish_success_endpoint ev s cs :
  est_error ev = None ->
  nth_error (heap s) (est_settings ev) = Some cs ->
  exists s' srv, handleEstablish ev s = Some (tt, s') /\
    servers s' = servers s ++ [Some srv] /\
    srv_handle srv = est_serverHandle ev /\ srv_type srv = est_connectionType ev /\
    nth_error (heap s') (srv_settings srv) =
      Some (if isPrimaryOrTest (est_connectionType ev) && negb (cs_isReplicaSet cs)
               && ssh_enabled (cs_ssh cs)
            then setServerPort (est_localport ev) (setServerHost "127.0.0.1" cs) else cs) /\
    nth_error (heap s') (est_settings ev) = Some cs /\
    lastServerHandle s' = lastServerHandle s /\
    exists pre, trace s' = pre ++
      [ASend (est_worker ev) (ListenSshConnectionRequest (est_serverHandle ev) (est_connectionType ev))].
Proof.
  intros Er H. rewrite (handleEstablish_success s ev cs Er H). do 2 eexists.
  split; [reflexivity|]. simpl. split; [reflexivity|]. split; [reflexivity|]. split; [reflexivity|].
  split; [apply nth_error_snoc_last|].
  split; [rewrite nth_error_app1 by (eapply nth_error_lt; exact H); exact H|].
  split; [reflexivity|].
  exists (trace s ++ [ALog MsgTunnelCreated Info; ARunWorkerThread (est_serverHandle ev);
                      ALog (MsgConnecting (serverLabel cs)) Info; ATryConnect (est_serverHandle ev)]).
  rewrite <- app_assoc. reflexivity.
Qed.

Lemma establish_success_endpoint_witness :
  exists s' srv, handleEstablish (tunnelResponse None) tunnelOpened = Some (tt, s') /\
    servers s' = servers tunnelOpened ++ [Some srv] /\
    srv_handle srv = 1 /\ srv_type srv = ConnectionPrimary /\
    nth_error (heap s') (srv_settings srv) =
      Some (setServerPort 40000 (setServerHost "127.0.0.1" (tunnelSettings false))) /\
    nth_error (heap s') 1 = Some (tunnelSettings false) /\
    lastServerHandle s' = lastServerHandle tunnelOpened /\
    exists pre, trace s' = pre ++ [ASend 0 (ListenSshConnectionRequest 1 ConnectionPrimary)].
Proof.
  apply (establish_success_endpoint (tunnelResponse None) tunnelOpened (tunnelSettings false));
    reflexivity.
Defined.

(** X8. In every state reachable without overflowing the [int] counter
    (no step lowers it), the handles issued so far are exactly
    [1, 2, ..., lastServerHandle], in this order (none is issued twice),
    and every registered server and every establish request carries one
    of them. *)
Theorem reachable_issued_handles w :
  reachableNoOverflow w ->
  issuedHandles (trace (app w)) = map Z.of_nat (seq 1 (Z.to_nat (lastServerHandle (app w)))) /\
  (forall x, In x (serverHandles (servers (app w))) -> In x (issuedHandles (trace (app w)))) /\
  (forall x, In x (establishRequests (trace (app w))) -> In x (issuedHandles (trace (app w)))).
Proof.
  intros Hr. destruct Hr as [h0 Hs].
  assert (HU : issuedHandles (trace (app w)) = issuedUpTo (lastServerHandle (app w)))
    by (eapply steps_issued; [exact Hs|apply Inv_init|reflexivity]).
  destruct (steps_Inv _ _ Hs (Inv_init h0)) as (_ & H2 & _ & H4).
  split; [exact HU|]. rewrite HU. split.
  - intros x Hx. apply In_issuedUpTo, H2, Hx.
  - intros x Hx. apply In_issuedUpTo, H4, Hx.
Qed.

Lemma reachable_issued_handles_witness :
  issuedHandles (trace tunnelOpened) = [1] /\
  (forall x, In x (serverHandles (servers tunnelOpened)) -> In x (issuedHandles (trace tunnelOpened))) /\
  (forall x, In x (establishRequests (trace tunnelOpened)) -> In x (issuedHandles (trace tunnelOpened))).
Proof.
  exact (reachable_issued_handles (mkWorld tunnelOpened []) tunnelOpened_reachable).
Defined.

Lemma buildCollectionQuery_template_witness :
  ~ In "%"%char (list_ascii_of_string "a\b") /\
  buildCollectionQuery "a\b" "find({})" = collectionQueryTemplate "a\b" "find({})".
Proof.
  assert (Hn : ~ In "%"%char (list_ascii_of_string "a\b")) by (simpl; intuition discriminate).
  split; [exact Hn|]. apply (buildCollectionQuery_template "a\b" "find({})"), Hn.
Defined.

(** The shared effect of the three [openShell] overloads: the settings
    object of the server is updated by [f], then the primitive runs. *)
Lemma set_settings_openShell_facts o p f si s cs :
  nth_error (heap s) p = Some cs ->
  exists s' sh, (set_settings p f ;;; openShell (Some o) p si) s = Some (tt, s') /\
    shells s' = shells s ++ [sh] /\ servers s' = servers s ++ [Some (shell_server sh)] /\
    shell_scriptInfo sh = si /\ srv_type (shell_server sh) = ConnectionSecondary /\
    srv_handle (shell_server sh) = wrap32 (lastServerHandle s + 1) /\
    nth_error (heap s') p = Some (f cs) /\
    nth_error (heap s') (srv_settings (shell_server sh)) = Some (f cs) /\
    srv_settings (shell_server sh) <> p /\
    published (trace s') = published (trace s) ++ [OpeningShellEvent sh].
Proof.
  intros H. rewrite (set_settings_then o p f si s cs H).
  apply (openShell_some_origin_facts o p si (withHeap s (list_set (heap s) p (f cs))) (f cs)).
  simpl. eapply nth_error_list_set_eq. exact H.
Qed.

(** X9. [openShell] on a database sets the database as the default
    database of the server's settings object, then opens a shell whose
    Secondary server has a fresh handle and a clone of the updated
    settings, with the given script, execute flag, cursor, title and
    file, and the database's name. *)
Theorem openShellDatabase_effect database script execute shellName cursor fp s cs :
  nth_error (heap s) (connectionRecord (db_server database)) = Some cs ->
  exists s' sh, openShellDatabase database script execute shellName cursor fp s = Some (tt, s') /\
    shells s' = shells s ++ [sh] /\ servers s' = servers s ++ [Some (shell_server sh)] /\
    shell_scriptInfo sh = mkScriptInfo script execute (db_name database) cursor shellName fp /\
    srv_type (shell_server sh) = ConnectionSecondary /\
    srv_handle (shell_server sh) = wrap32 (lastServerHandle s + 1) /\
    nth_error (heap s') (connectionRecord (db_server database)) =
      Some (setDefaultDatabase (db_name database) cs) /\
    nth_error (heap s') (srv_settings (shell_server sh)) =
      Some (setDefaultDatabase (db_name database) cs) /\
    published (trace s') = published (trace s) ++ [OpeningShellEvent sh].
Proof.
  intros H. unfold openShellDatabase.
  destruct (set_settings_openShell_facts (db_server database) _ (setDefaultDatabase (db_name database))
              (mkScriptInfo script execute (db_name database) cursor shellName fp) s cs H)
    as (s' & sh & E & H1 & H2 & H3 & H4 & H5 & H6 & H7 & _ & H9).
  exists s', sh. repeat split; assumption.
Qed.

Lemma openShellDatabase_effect_witness :
  exists s' sh, openShellDatabase sampleDatabase "db.stats()" false "test" (1, 1) "" tunnelOpened
                = Some (tt, s') /\
    shells s' = [sh] /\ servers s' = servers tunnelOpened ++ [Some (shell_server sh)] /\
    shell_scriptInfo sh = mkScriptInfo "db.stats()" false "test" (1, 1) "test" "" /\
    srv_type (shell_server sh) = ConnectionSecondary /\
    srv_handle (shell_server sh) = 2 /\
    nth_error (heap s') 1%nat = Some (setDefaultDatabase "test" (tunnelSettings false)) /\
    nth_error (heap s') (srv_settings (shell_server sh)) =
      Some (setDefaultDatabase "test" (tunnelSettings false)) /\
    published (trace s') = published (trace tunnelOpened) ++ [OpeningShellEvent sh].
Proof.
  apply (openShellDatabase_effect sampleDatabase "db.stats()" false "test" (1, 1) "" tunnelOpened
           (tunnelSettings false)).
  reflexivity.
Defined.

(** X10. [openShell] on a server with a script sets [dbName] as the
    default database of the server's settings object only when [dbName]
    is not empty; with an empty [dbName] the settings object is left as
    it is. Either way the shell's server is a clone of the settings as
    they then are, and the shell carries the given script information. *)
Theorem openShellScript_effect server script dbName execute shellName cursor fp s cs :
  nth_error (heap s) (connectionRecord server) = Some cs ->
  let cs' := if String.eqb dbName EmptyString then cs else setDefaultDatabase dbName cs in
  exists s' sh, openShellScript server script dbName execute shellName cursor fp s = Some (tt, s') /\
    shells s' = shells s ++ [sh] /\ servers s' = servers s ++ [Some (shell_server sh)] /\
    shell_scriptInfo sh = mkScriptInfo script execute dbName cursor shellName fp /\
    srv_type (shell_server sh) = ConnectionSecondary /\
    srv_handle (shell_server sh) = wrap32 (lastServerHandle s + 1) /\
    nth_error (heap s') (connectionRecord server) = Some cs' /\
    nth_error (heap s') (srv_settings (shell_server sh)) = Some cs' /\
    published (trace s') = published (trace s) ++ [OpeningShellEvent sh].
Proof.
  intros H cs'. unfold openShellScript, cs'.
  destruct (String.eqb dbName EmptyString); simpl negb; cbv iota.
  - destruct (openShell_some_origin_facts server (connectionRecord server)
                (mkScriptInfo script execute dbName cursor shellName fp) s cs H)
      as (s' & sh & E & H1 & H2 & H3 & H4 & H5 & H6 & H7 & _ & H9).
    exists s', sh. repeat split; assumption.
  - destruct (set_settings_openShell_facts server _ (setDefaultDatabase dbName)
                (mkScriptInfo script execute dbName cursor shellName fp) s cs H)
      as (s' & sh & E & H1 & H2 & H3 & H4 & H5 & H6 & H7 & _ & H9).
    exists s', sh. repeat split; assumption.
Qed.

Lemma openShellScript_effect_witness :
  exists s' sh, openShellScript originServer "db.stats()" "" true "shell" (0, 0) "" tunnelOpened
                = Some (tt, s') /\
    shells s' = [sh] /\ servers s' = servers tunnelOpened ++ [Some (shell_server sh)] /\
    shell_scriptInfo sh = mkScriptInfo "db.stats()" true "" (0, 0) "shell" "" /\
    srv_type (shell_server sh) = ConnectionSecondary /\
    srv_handle (shell_server sh) = 2 /\
    nth_error (heap s') 1%nat = Some (tunnelSettings false) /\
    nth_error (heap s') (srv_settings (shell_server sh)) = Some (tunnelSettings false) /\
    published (trace s') = published (trace tunnelOpened) ++ [OpeningShellEvent sh].
Proof.
  apply (openShellScript_effect originServer "db.stats()" "" true "shell" (0, 0) "" tunnelOpened
           (tunnelSettings false)).
  reflexivity.
Defined.

(** X11. [openShell] on a collection sets the collection's database as
    the default database of the server's settings object and opens a
    shell that executes [buildCollectionQuery] of the collection's name
    and ["find({})"], in that database, with the cursor at [(0, -2)] and
    the database name as title. *)
Theorem openShellCollection_effect collection fp s cs :
  let database := coll_database collection in
  nth_error (heap s) (connectionRecord (db_server database)) = Some cs ->
  exists s' sh, openShellCollection collection fp s = Some (tt, s') /\
    shells s' = shells s ++ [sh] /\ servers s' = servers s ++ [Some (shell_server sh)] /\
    shell_scriptInfo sh =
      mkScriptInfo (buildCollectionQuery (coll_name collection) "find({})") true
        (db_name database) (0, -2) (db_name database) fp /\
    srv_type (shell_server sh) = ConnectionSecondary /\
    srv_handle (shell_server sh) = wrap32 (lastServerHandle s + 1) /\
    nth_error (heap s') (connectionRecord (db_server database)) =
      Some (setDefaultDatabase (db_name database) cs) /\
    nth_error (heap s') (srv_settings (shell_server sh)) =
      Some (setDefaultDatabase (db_name database) cs) /\
    published (trace s') = published (trace s) ++ [OpeningShellEvent sh].
Proof.
  intros database H. unfold openShellCollection.
  destruct (set_settings_openShell_facts (db_server database) _ (setDefaultDatabase (db_name database))
              (mkScriptInfo (buildCollectionQuery (coll_name collection) "find({})") true
                 (db_name database) (0, -2) (db_name database) fp) s cs H)
    as (s' & sh & E & H1 & H2 & H3 & H4 & H5 & H6 & H7 & _ & H9).
  exists s', sh. repeat split; assumption.
Qed.

Lemma openShellCollection_effect_witness :
  exists s' sh, openShellCollection sampleCollection "" tunnelOpened = Some (tt, s') /\
    shells s' = [sh] /\ servers s' = servers tunnelOpened ++ [Some (shell_server sh)] /\
    shell_scriptInfo sh =
      mkScriptInfo (buildCollectionQuery "a\b" "find({})") true "test" (0, -2) "test" "" /\
    srv_type (shell_server sh) = ConnectionSecondary /\
    srv_handle (shell_server sh) = 2 /\
    nth_error (heap s') 1%nat = Some (setDefaultDatabase "test" (tunnelSettings false)) /\
    nth_error (heap s') (srv_settings (shell_server sh)) =
      Some (setDefaultDatabase "test" (tunnelSettings false)) /\
    published (trace s') = published (trace tunnelOpened) ++ [OpeningShellEvent sh].
Proof.
  apply (openShellCollection_effect sampleCollection "" tunnelOpened (tunnelSettings false)).
  reflexivity.
Defined.

Lemma filter_filter_comm {A} (f g : A -> bool) l :
  filter f (filter g l) = filter g (filter f l).
Proof.
  induction l as [|a l IH]; simpl; [reflexivity|].
  destruct (g a) eqn:Eg, (f a) eqn:Ef; simpl; rewrite ?Eg, ?Ef, IH; reflexivity.
Qed.

Lemma filter_filter_idem {A} (f : A -> bool) l : filter f (filter f l) = filter f l.
Proof.
  induction l as [|a l IH]; simpl; [reflexivity|].
  destruct (f a) eqn:Ef; simpl; rewrite ?Ef, IH; reflexivity.
Qed.

(** X12. Closing servers composes as a set operation: closing the same
    pointer twice is closing it once, and closing two pointers gives the
    same [App] in either order. *)
Theorem closeServer_idem_comm a b s :
  (closeServer a ;;; closeServer a) s = closeServer a s /\
  (closeServer a ;;; closeServer b) s = (closeServer b ;;; closeServer a) s.
Proof.
  unfold bind, closeServer. simpl. split.
  - rewrite filter_filter_idem. reflexivity.
  - rewrite filter_filter_comm. reflexivity.
Qed.
